(** * dev-brewmaster: the change-detection engine of [src/diff_analyzer.py]

    A shallow embedding of [DiffAnalyzer] (article extraction from a parsed
    page, comparison of two article lists, assembly of the diff result) and of
    the part of [BlogScraper] it calls ([get_domain], [get_previous_content]),
    followed by the properties of the specification checked against it.

    Modelling conventions.
    - A Python [str] is a [string]; a character is a code point below 256 and
      [len] is [String.length].
    - A parsed page is a [node] tree, as BeautifulSoup builds it.  The parser
      itself ([BeautifulSoup(markup, 'lxml')]) and [urlparse] are library code:
      they are parameters ([lxml], [netloc]) of the functions that call them.
      [urlparse] raises [ValueError] on some urls (an unmatched bracket in the
      host part), so [netloc] has an [outcome], and so has every function
      that calls it.
    - An element handle is a node together with its position in the page, so
      that [find_next] and [next_sibling], which leave the element, can be
      followed in the page.
    - A Python [dict] is an association list in insertion order with
      overwrite-in-place.
    - The archive and the diff store on disk are finite maps from a directory
      name to a finite map from a file name to the file's content; a domain
      and a date label are plain directory and file names (no path
      separator), and a stored diff is the result record itself rather than
      its JSON text.  Snapshots are written and read in text mode: with the
      line separator of a POSIX system a write stores the text as it is, and
      a read turns every CR LF and every lone CR into LF. *)

From Stdlib Require Import Ascii.
From stdpp Require Import base strings list gmap sorting.

(** ** Python strings *)

(** [str.isspace] on one character, for code points below 256. *)
Definition isspace (c : ascii) : bool :=
  bool_decide (nat_of_ascii c ∈ [9; 10; 11; 12; 13; 28; 29; 30; 31; 32; 133; 160]).

Fixpoint lstrip (s : string) : string :=
  match s with
  | EmptyString => EmptyString
  | String c r => if isspace c then lstrip r else s
  end.

Fixpoint rstrip (s : string) : string :=
  match s with
  | EmptyString => EmptyString
  | String c r =>
      match rstrip r with
      | EmptyString => if isspace c then EmptyString else String c EmptyString
      | r' => String c r'
      end
  end.

(** [s.strip()] *)
Definition strip (s : string) : string := rstrip (lstrip s).

(** The one-character string holding a line feed. *)
Definition newline : string := String (ascii_of_nat 10) EmptyString.

(** [sep.join(parts)] *)
Definition join (sep : string) (parts : list string) : string :=
  String.concat sep parts.

(** [sub in s] *)
Fixpoint contains (sub s : string) : bool :=
  String.prefix sub s ||
  match s with
  | EmptyString => false
  | String _ r => contains sub r
  end.

(** [s.endswith(suffix)] *)
Fixpoint endswith (suffix s : string) : bool :=
  bool_decide (s = suffix) ||
  match s with
  | EmptyString => false
  | String _ r => endswith suffix r
  end.

(** [s.replace(old, '')] for a non-empty [old]: [skip] counts the characters
    of a match that remain to be dropped. *)
Fixpoint remove_all (old : string) (skip : nat) (s : string) : string :=
  match s with
  | EmptyString => EmptyString
  | String c r =>
      match skip with
      | S k => remove_all old k r
      | O =>
          if String.prefix old s
          then remove_all old (String.length old - 1) r
          else String c (remove_all old 0 r)
      end
  end.

(** Splitting on runs of white space, as BeautifulSoup splits a [class]
    attribute into its tokens. *)
Fixpoint split_ws_go (cur : string) (s : string) : list string :=
  match s with
  | EmptyString => if bool_decide (cur = EmptyString) then [] else [String.rev cur]
  | String c r =>
      if isspace c
      then (if bool_decide (cur = EmptyString) then [] else [String.rev cur])
             ++ split_ws_go EmptyString r
      else split_ws_go (String c cur) r
  end.

Definition split_ws (s : string) : list string := split_ws_go EmptyString s.

(** ** The parsed page *)

(** A node of the tree: a text string, a comment (or another special string
    that [get_text] skips), or a tag with its attributes and children. *)
#[warnings="-register-all"]
Inductive node : Type :=
  | NavigableString (s : string)
  | Comment (s : string)
  | Tag (name : string) (attrs : list (string * string)) (contents : list node).

(** A position in the page: the child indices from the root. *)
Definition path : Type := list nat.

(** An element handle. *)
Record element : Type := Element { loc : path; el : node }.

(** [node.name]: [None] on strings. *)
Definition node_name (n : node) : option string :=
  match n with
  | Tag name _ _ => Some name
  | _ => None
  end.

Definition is_tag (n : node) : bool :=
  match n with
  | Tag _ _ _ => true
  | _ => false
  end.

Definition contents_of (n : node) : list node :=
  match n with
  | Tag _ _ cs => cs
  | _ => []
  end.

(** Truth value of a node in a condition: a tag is always true, a string is
    true when it is not empty. *)
Definition truthy (n : node) : bool :=
  match n with
  | Tag _ _ _ => true
  | NavigableString s | Comment s => negb (bool_decide (s = EmptyString))
  end.

(** [name in names] for a node, false on strings. *)
Definition name_in (names : list string) (n : node) : bool :=
  match node_name n with
  | Some nm => bool_decide (nm ∈ names)
  | None => false
  end.

(** [tag.has_attr(key)] and [tag[key]] *)
Fixpoint lookup_attr (key : string) (attrs : list (string * string)) : option string :=
  match attrs with
  | [] => None
  | (k, v) :: r => if bool_decide (k = key) then Some v else lookup_attr key r
  end.

Definition get_attr (key : string) (n : node) : option string :=
  match n with
  | Tag _ attrs _ => lookup_attr key attrs
  | _ => None
  end.

Definition has_attr (key : string) (n : node) : bool :=
  bool_decide (is_Some (get_attr key n)).

(** The proper descendants of a node in document order, each with its
    position; [p] is the position of the node itself. *)
Fixpoint descendants_at (p : path) (n : node) : list element :=
  match n with
  | Tag _ _ cs =>
      (fix go (i : nat) (cs : list node) : list element :=
         match cs with
         | [] => []
         | c :: r =>
             Element (p ++ [i]) c :: descendants_at (p ++ [i]) c ++ go (S i) r
         end) 0 cs
  | _ => []
  end.

(** [tag.descendants] of an element handle. *)
Definition descendants (e : element) : list element :=
  descendants_at (loc e) (el e).

(** The root handle of a page. *)
Definition root (soup : node) : element := Element [] soup.

(** [tag.get_text()]: the text strings below the tag, concatenated. *)
Definition get_text (n : node) : string :=
  match n with
  | NavigableString s | Comment s => s
  | Tag _ _ _ =>
      join EmptyString
        (omap (λ d, match el d with NavigableString s => Some s | _ => None end)
              (descendants_at [] n))
  end.

(** [tag.string]: the single string below a tag, through single children. *)
Fixpoint tag_string (n : node) : option string :=
  match n with
  | Tag _ _ [c] =>
      match c with
      | NavigableString s | Comment s => Some s
      | Tag _ _ _ => tag_string c
      end
  | _ => None
  end.

(** [tag.find_all(names)]: the descendant tags with one of the names. *)
Definition find_all (names : list string) (e : element) : list element :=
  filter (λ d, name_in names (el d) = true) (descendants e).

(** [tag.find(name)] *)
Definition find (name : string) (e : element) : option element :=
  head (find_all [name] e).

(** [tag.find(name, string=True)]: the first descendant tag of that name
    whose [.string] is not [None]. *)
Definition find_with_string (name : string) (e : element) : option element :=
  head (filter (λ d, is_Some (tag_string (el d))) (find_all [name] e)).

(** The node at a position of the page. *)
Fixpoint get_node (n : node) (p : path) : option node :=
  match p with
  | [] => Some n
  | i :: r =>
      match contents_of n !! i with
      | Some c => get_node c r
      | None => None
      end
  end.

(** The position of the parent and the index below it. *)
Fixpoint split_last (p : path) : option (path * nat) :=
  match p with
  | [] => None
  | [i] => Some ([], i)
  | j :: r => (λ '(q, i), (j :: q, i)) <$> split_last r
  end.

(** The chain [e.next_sibling], [e.next_sibling.next_sibling], ...: the
    children of the parent that stand after the element. *)
Definition next_siblings (soup : node) (e : element) : list node :=
  match split_last (loc e) with
  | None => []
  | Some (parent, i) =>
      match get_node soup parent with
      | Some n => drop (S i) (contents_of n)
      | None => []
      end
  end.

(** What stands after position [p] in a document-order listing. *)
Fixpoint after (p : path) (l : list element) : list element :=
  match l with
  | [] => []
  | x :: r => if bool_decide (loc x = p) then r else after p r
  end.

(** [e.next_elements]: everything parsed after the element's start, its own
    descendants first, then the rest of the page. *)
Definition next_elements (soup : node) (e : element) : list element :=
  after (loc e) (descendants (root soup)).

(** [e.find_next(names)] *)
Definition find_next (soup : node) (names : list string) (e : element) : option element :=
  head (filter (λ d, name_in names (el d) = true) (next_elements soup e)).

(** ** CSS selectors *)

(** The simple selectors the analyzer uses: [name], [.cls], [[attr]] and
    [[attr*="value"]].  A selector is a comma-separated group of them. *)
Inductive simple_selector : Type :=
  | TypeSel (name : string)
  | ClassSel (cls : string)
  | AttrSel (attr : string)
  | AttrContainsSel (attr value : string).

Definition selector : Type := list simple_selector.

Definition class_tokens (n : node) : list string :=
  match get_attr "class" n with
  | Some v => split_ws v
  | None => []
  end.

(** The value an attribute selector sees: the tokens of [class] joined by one
    space, any other attribute as it is. *)
Definition attr_text (attr : string) (n : node) : option string :=
  if bool_decide (attr = "class")
  then (λ v, join " " (split_ws v)) <$> get_attr attr n
  else get_attr attr n.

Definition matches_simple (s : simple_selector) (n : node) : bool :=
  is_tag n &&
  match s with
  | TypeSel nm => bool_decide (node_name n = Some nm)
  | ClassSel c => bool_decide (c ∈ class_tokens n)
  | AttrSel a => has_attr a n
  | AttrContainsSel a v =>
      match attr_text a n with
      | Some x => negb (bool_decide (v = EmptyString)) && contains v x
      | None => false
      end
  end.

Definition matches (sel : selector) (n : node) : bool :=
  existsb (λ s, matches_simple s n) sel.

(** [tag.select(sel)]: the descendants that match one of the group, in
    document order. *)
Definition select (sel : selector) (e : element) : list element :=
  filter (λ d, matches sel (el d) = true) (descendants e).

(** [tag.select_one(sel)] *)
Definition select_one (sel : selector) (e : element) : option element :=
  head (select sel e).

(** ['article', '.post', '.entry', ...] *)
Definition article_selectors : list selector :=
  [ [TypeSel "article"]; [ClassSel "post"]; [ClassSel "entry"];
    [ClassSel "blog-post"]; [ClassSel "blog-entry"];
    [AttrContainsSel "class" "article"]; [AttrContainsSel "class" "post"];
    [AttrContainsSel "class" "entry"];
    [ClassSel "card"]; [ClassSel "item"]; [ClassSel "news-item"] ].

(** ['h1, h2, h3, h4, .title, .entry-title'] *)
Definition title_selector : selector :=
  [TypeSel "h1"; TypeSel "h2"; TypeSel "h3"; TypeSel "h4";
   ClassSel "title"; ClassSel "entry-title"].

(** ['.date, .time, .entry-date, .published, time, [datetime]'] *)
Definition date_selector : selector :=
  [ClassSel "date"; ClassSel "time"; ClassSel "entry-date"; ClassSel "published";
   TypeSel "time"; AttrSel "datetime"].

(** ['.content, .entry-content, .description, .summary, p'] *)
Definition content_selector : selector :=
  [ClassSel "content"; ClassSel "entry-content"; ClassSel "description";
   ClassSel "summary"; TypeSel "p"].

(** ** Articles *)

(** An article is a [dict] with the optional keys [title], [url], [date] and
    [content]: a field is [None] when the key is absent. *)
Record Article : Type := mkArticle {
  title : option string;
  url : option string;
  date : option string;
  content : option string
}.

Definition empty_article : Article := mkArticle None None None None.

Definition set_title (v : string) (a : Article) : Article :=
  mkArticle (Some v) (url a) (date a) (content a).
Definition set_url (v : string) (a : Article) : Article :=
  mkArticle (title a) (Some v) (date a) (content a).
Definition set_date (v : string) (a : Article) : Article :=
  mkArticle (title a) (url a) (Some v) (content a).
Definition set_content (v : string) (a : Article) : Article :=
  mkArticle (title a) (url a) (date a) (Some v).

(** [article['url'] = link['href']] under [link.has_attr('href')] *)
Definition set_url_from (link : element) (a : Article) : Article :=
  match get_attr "href" (el link) with
  | Some href => set_url href a
  | None => a
  end.

(** The date element's [datetime] attribute, else its trimmed text. *)
Definition set_date_from (date_elem : element) (a : Article) : Article :=
  match get_attr "datetime" (el date_elem) with
  | Some v => set_date v a
  | None => set_date (strip (get_text (el date_elem))) a
  end.

(** [article and article.get('title')]: the dict is not empty and its title
    is a non-empty string. *)
Definition has_title (a : Article) : bool :=
  match title a with
  | Some t => negb (bool_decide (t = EmptyString))
  | None => false
  end.

(** ** The extractor *)

Definition _extract_article_data (soup : node) (element : element) : Article :=
  let article := empty_article in
  let title_elem := select_one title_selector element in
  let article :=
    match title_elem with
    | Some t =>
        let article := set_title (strip (get_text (el t))) article in
        match find "a" t with
        | Some link => set_url_from link article
        | None => article
        end
    | None => article
    end in
  let article :=
    match title article with
    | None =>
        match find_with_string "a" element with
        | Some link =>
            set_url_from link (set_title (strip (get_text (el link))) article)
        | None => article
        end
    | Some _ => article
    end in
  let date_elem := select_one date_selector element in
  let article :=
    match date_elem with
    | Some d => set_date_from d article
    | None => article
    end in
  let content_elem := select_one content_selector element in
  let article :=
    match content_elem with
    | Some c => set_content (strip (get_text (el c))) article
    | None =>
        match find "p" element with
        | Some _ =>
            let paragraphs :=
              map (λ p, strip (get_text (el p))) (find_all ["p"] element) in
            set_content (join newline paragraphs) article
        | None => article
        end
    end in
  match title article, content article with
  | Some _, None =>
      match select_one title_selector element with
      | Some t =>
          match find_next soup ["p"] t with
          | Some next_p => set_content (strip (get_text (el next_p))) article
          | None => article
          end
      | None => article
      end
  | _, _ => article
  end.

Definition _is_likely_article_title (soup : node) (heading : element) : bool :=
  let text := strip (get_text (el heading)) in
  if (String.length text <? 10) || (200 <? String.length text) then false
  else if bool_decide (is_Some (find "a" heading)) then true
  else if bool_decide (is_Some (find_next soup ["p"] heading)) then true
  else false.

(** The [while next_elem:] loop over the following siblings: a paragraph is
    collected, a heading [h1]..[h4] stops the walk, anything else is skipped;
    the walk also ends at a sibling that is false as a condition. *)
Fixpoint collect_paragraphs (siblings : list node) (paragraphs : list string)
  : list string :=
  match siblings with
  | [] => paragraphs
  | next_elem :: rest =>
      if negb (truthy next_elem) then paragraphs
      else if bool_decide (node_name next_elem = Some "p")
      then collect_paragraphs rest (paragraphs ++ [strip (get_text next_elem)])
      else if name_in ["h1"; "h2"; "h3"; "h4"] next_elem then paragraphs
      else collect_paragraphs rest paragraphs
  end.

Definition _extract_article_from_heading (soup : node) (heading : element) : Article :=
  let article := set_title (strip (get_text (el heading))) empty_article in
  let article :=
    match find "a" heading with
    | Some link => set_url_from link article
    | None => article
    end in
  let article :=
    match find_next soup ["time"; ".date"; ".published"] heading with
    | Some d => set_date_from d article
    | None => article
    end in
  let paragraphs := collect_paragraphs (next_siblings soup heading) [] in
  match paragraphs with
  | [] => article
  | _ => set_content (join newline paragraphs) article
  end.

(** The inner [for element in article_elements] loop. *)
Definition process_elements (soup : node) (article_elements : list element)
    (articles : list Article) : list Article :=
  fold_left
    (λ articles element,
       let article := _extract_article_data soup element in
       if has_title article then articles ++ [article] else articles)
    article_elements articles.

(** The [for selector in article_selectors] loop with its [break]. *)
Fixpoint try_selectors (soup : node) (selectors : list selector)
    (articles : list Article) : list Article :=
  match selectors with
  | [] => articles
  | sel :: rest =>
      match select sel (root soup) with
      | [] => try_selectors soup rest articles
      | article_elements =>
          match process_elements soup article_elements articles with
          | [] => try_selectors soup rest []
          | articles => articles
          end
      end
  end.

(** The [for heading in headings] loop of the fallback. *)
Definition heading_pass (soup : node) (articles : list Article) : list Article :=
  fold_left
    (λ articles heading,
       if _is_likely_article_title soup heading
       then
         let article := _extract_article_from_heading soup heading in
         if has_title article then articles ++ [article] else articles
       else articles)
    (find_all ["h1"; "h2"; "h3"] (root soup)) articles.

(** [_extract_articles] after the parse. *)
Definition extract_from_soup (soup : node) : list Article :=
  let articles := try_selectors soup article_selectors [] in
  match articles with
  | [] => heading_pass soup articles
  | _ => articles
  end.

(** ** The comparator *)

(** [art.get('url', art.get('title', ''))] *)
Definition identity_key (art : Article) : string :=
  match url art with
  | Some u => u
  | None => default EmptyString (title art)
  end.

(** [d[key] = v] on a dict: an existing key keeps its place and takes the new
    value, a new key goes to the end. *)
Fixpoint dict_set {V : Type} (key : string) (v : V) (d : list (string * V))
  : list (string * V) :=
  match d with
  | [] => [(key, v)]
  | (k, w) :: r =>
      if bool_decide (k = key) then (k, v) :: r else (k, w) :: dict_set key v r
  end.

(** [d.get(key)]; [key in d] is [is_Some (dict_get key d)]. *)
Fixpoint dict_get {V : Type} (key : string) (d : list (string * V)) : option V :=
  match d with
  | [] => None
  | (k, w) :: r => if bool_decide (k = key) then Some w else dict_get key r
  end.

(** [{art.get('url', art.get('title', '')): art for art in articles}] *)
Definition article_map (articles : list Article) : list (string * Article) :=
  fold_left (λ d art, dict_set (identity_key art) art d) articles [].

Record ChangedArticle : Type := mkChanged {
  changed_title : option string;
  changed_url : option string;
  previous_content : option string;
  current_content : option string
}.

(** The identity key of a changed entry, read off its [url] and [title] as
    for an article. *)
Definition changed_key (c : ChangedArticle) : string :=
  match changed_url c with
  | Some u => u
  | None => default EmptyString (changed_title c)
  end.

Definition diff_obj (prev_art curr_art : Article) : ChangedArticle :=
  mkChanged (title curr_art) (url curr_art) (content prev_art) (content curr_art).

(** The body of [for key, curr_art in curr_map.items()]. *)
Definition classify_current (prev_map : list (string * Article))
    (acc : list Article * list ChangedArticle) (item : string * Article)
  : list Article * list ChangedArticle :=
  let '(new_articles, changed_articles) := acc in
  let '(key, curr_art) := item in
  match dict_get key prev_map with
  | None => (new_articles ++ [curr_art], changed_articles)
  | Some prev_art =>
      if bool_decide (content curr_art ≠ content prev_art)
      then (new_articles, changed_articles ++ [diff_obj prev_art curr_art])
      else acc
  end.

(** The body of [for key, prev_art in prev_map.items()]. *)
Definition classify_previous (curr_map : list (string * Article))
    (removed_articles : list Article) (item : string * Article) : list Article :=
  let '(key, prev_art) := item in
  match dict_get key curr_map with
  | None => removed_articles ++ [prev_art]
  | Some _ => removed_articles
  end.

(** Lines 105-131 of [_compare_versions]: the two maps and the three lists. *)
Definition compare_articles (prev_articles curr_articles : list Article)
  : list Article * list ChangedArticle * list Article :=
  let prev_map := article_map prev_articles in
  let curr_map := article_map curr_articles in
  let '(new_articles, changed_articles) :=
    fold_left (classify_current prev_map) curr_map ([], []) in
  let removed_articles := fold_left (classify_previous curr_map) prev_map [] in
  (new_articles, changed_articles, removed_articles).

(** ** The diff result *)

Record DiffResult : Type := mkDiff {
  result_url : string;
  domain : string;
  current_date : string;
  previous_date : option string;
  has_changes : bool;
  new_articles : list Article;
  changed_articles : list ChangedArticle;
  removed_articles : list Article
}.

(** [len(l) > 0] *)
Definition nonempty {A : Type} (l : list A) : bool := 0 <? length l.

(** The result built when [get_previous_content] found nothing. *)
Definition everything_new (url domain current_date_str : string)
    (articles : list Article) : DiffResult :=
  mkDiff url domain current_date_str None (nonempty articles) articles [] [].

(** ** Exceptions *)

(** The outcome of a call that may raise: [Raised] when an exception leaves
    the call, [Returned] with the value otherwise. *)
Inductive outcome (A : Type) : Type :=
  | Raised
  | Returned (value : A).

Arguments Raised {A}.
Arguments Returned {A} value.

(** ** Storage *)

(** What a text-mode read makes of the stored text: CR LF and a lone CR
    become LF. *)
Fixpoint universal_newlines (s : string) : string :=
  match s with
  | EmptyString => EmptyString
  | String c r =>
      if bool_decide (c = ascii_of_nat 13)
      then
        String (ascii_of_nat 10)
          match r with
          | EmptyString => EmptyString
          | String c' r' =>
              if bool_decide (c' = ascii_of_nat 10)
              then universal_newlines r'
              else universal_newlines r
          end
      else String c (universal_newlines r)
  end.

(** [data/archive/<domain>/<file>] and [data/diffs/<domain>/<file>]. *)
Record filesystem : Type := mkFs {
  archive : gmap string (gmap string string);
  diffs : gmap string (gmap string DiffResult)
}.

(** [files.sort(reverse=True)] on file names. *)
Definition sort_reverse (files : list string) : list string :=
  merge_sort (flip String.le) files.

(** [re.sub(r'^www\.', '', domain)] *)
Definition strip_www (d : string) : string :=
  match d with
  | String "w" (String "w" (String "w" (String "." r))) => r
  | _ => d
  end.

(** [data/archive/<domain>/<date>.html] when it exists: the test
    [os.path.exists] and the text-mode read that follows it. *)
Definition read_snapshot (fs : filesystem) (domain date_str : string) : option string :=
  universal_newlines <$>
    (archive fs !! domain ≫= (λ directory, directory !! (date_str +:+ ".html"))).

(** [BlogScraper.save_content] once the domain is known: the snapshot is
    written in text mode to [<date>.html] in the domain's directory; the
    stored text is the content as it is, and a later read translates its
    line ends. *)
Definition write_snapshot (fs : filesystem) (domain content date_str : string)
  : filesystem :=
  let directory := default ∅ (archive fs !! domain) in
  mkFs (<[domain := <[date_str +:+ ".html" := content]> directory]> (archive fs))
       (diffs fs).

(** [_save_diff_result]: [makedirs(exist_ok=True)], then the result is written
    to [<date>.json]. *)
Definition _save_diff_result (fs : filesystem) (diff_result : DiffResult)
    (domain date_str : string) : filesystem :=
  let directory := default ∅ (diffs fs !! domain) in
  mkFs (archive fs)
       (<[domain := <[date_str +:+ ".json" := diff_result]> directory]> (diffs fs)).

Section Pipeline.

(** [BeautifulSoup(markup, 'lxml')] and [urlparse(url).netloc], which
    raises on a url it cannot split. *)
Variable lxml : string → node.
Variable netloc : string → outcome string.

Definition _extract_articles (html_content : string) : list Article :=
  extract_from_soup (lxml html_content).

Definition _compare_versions
    (previous_content current_content url domain previous_date current_date_str : string)
  : DiffResult :=
  let prev_articles := _extract_articles previous_content in
  let curr_articles := _extract_articles current_content in
  let '(new_articles, changed_articles, removed_articles) :=
    compare_articles prev_articles curr_articles in
  mkDiff url domain current_date_str (Some previous_date)
    (nonempty new_articles || nonempty changed_articles || nonempty removed_articles)
    new_articles changed_articles removed_articles.

(** [BlogScraper.get_domain]: raises when [urlparse] does. *)
Definition get_domain (url : string) : outcome string :=
  match netloc url with
  | Raised => Raised
  | Returned domain => Returned (strip_www domain)
  end.

(** [BlogScraper.get_previous_content]: [Returned None] stands for
    [(None, None)]; the content is read in text mode. *)
Definition get_previous_content (fs : filesystem) (url : string)
  : outcome (option (string * string)) :=
  match get_domain url with
  | Raised => Raised
  | Returned domain =>
      match archive fs !! domain with
      | None => Returned None
      | Some directory =>
          let files :=
            filter (λ f, endswith ".html" f = true) (map_to_list directory).*1 in
          match files with
          | [] => Returned None
          | _ =>
              let files := sort_reverse files in
              let previous_file :=
                if 1 <? length files then files !!! 1 else files !!! 0 in
              Returned
                (Some (universal_newlines (directory !!! previous_file),
                       remove_all ".html" 0 previous_file))
          end
      end
  end.

(** [BlogScraper.save_content]: the outcome and the storage afterwards;
    when [get_domain] raises nothing has been written. *)
Definition save_content (fs : filesystem) (url content date_str : string)
  : outcome unit * filesystem :=
  match get_domain url with
  | Raised => (Raised, fs)
  | Returned domain => (Returned tt, write_snapshot fs domain content date_str)
  end.

(** [generate_diff]: the outcome (returning [None] when the current snapshot
    is missing) and the storage afterwards; [get_domain] is called first, so
    when it raises nothing has been read or written. *)
Definition generate_diff (fs : filesystem) (url current_date_str : string)
  : outcome (option DiffResult) * filesystem :=
  match get_domain url with
  | Raised => (Raised, fs)
  | Returned domain =>
      match read_snapshot fs domain current_date_str with
      | None => (Returned None, fs)
      | Some current_content =>
          match get_previous_content fs url with
          | Raised => (Raised, fs)
          | Returned previous =>
              let diff_result :=
                match previous with
                | None =>
                    let articles := _extract_articles current_content in
                    everything_new url domain current_date_str articles
                | Some (previous_content, previous_date) =>
                    _compare_versions previous_content current_content url
                      domain previous_date current_date_str
                end in
              (Returned (Some diff_result),
               _save_diff_result fs diff_result domain current_date_str)
          end
      end
  end.

End Pipeline.

(** ** Notions used by the statements *)

(** The articles one structural pattern contributes: one per matched element,
    kept when it has a non-empty title. *)
Definition pattern_articles (soup : node) (sel : selector) : list Article :=
  filter (λ a, has_title a = true)
         (map (_extract_article_data soup) (select sel (root soup))).

(** The articles of the heading fallback. *)
Definition heading_articles (soup : node) : list Article :=
  filter (λ a, has_title a = true)
         (map (_extract_article_from_heading soup)
              (filter (λ h, _is_likely_article_title soup h = true)
                      (find_all ["h1"; "h2"; "h3"] (root soup)))).

(** A sibling at which the paragraph walk of the heading extraction ends. *)
Definition walk_stops (n : node) : bool :=
  negb (truthy n) || name_in ["h1"; "h2"; "h3"; "h4"] n.

(** The trimmed texts of the paragraph tags of a list of nodes. *)
Definition paragraph_texts (l : list node) : list string :=
  map (λ n, strip (get_text n))
      (filter (λ n, node_name n = Some "p") l).

(** The [content] key set from a list of paragraph texts: absent when the
    list is empty. *)
Definition joined_content (paragraphs : list string) : option string :=
  match paragraphs with
  | [] => None
  | _ => Some (join newline paragraphs)
  end.

(** [has_changes] agrees with the three lists. *)
Definition has_changes_consistent (r : DiffResult) : Prop :=
  has_changes r = true ↔
  new_articles r ≠ [] ∨ changed_articles r ≠ [] ∨ removed_articles r ≠ [].

(** ** The specification's reading of two extraction rules

    These two definitions follow the words of the specification, not the
    code; they are compared with the code below. *)

(** ['.content, .entry-content, .description, .summary'] alone. *)
Definition content_class_selector : selector :=
  [ClassSel "content"; ClassSel "entry-content"; ClassSel "description";
   ClassSel "summary"].

(** Container content as specified: the first element of a content class,
    and the first paragraph only when there is none. *)
Definition spec_container_content (element : element) : option string :=
  match select_one content_class_selector element with
  | Some c => Some (strip (get_text (el c)))
  | None =>
      match find "p" element with
      | Some p => Some (strip (get_text (el p)))
      | None => None
      end
  end.

(** The structural level of a heading tag. *)
Definition heading_level (n : node) : option nat :=
  match node_name n with
  | Some "h1" => Some 1
  | Some "h2" => Some 2
  | Some "h3" => Some 3
  | Some "h4" => Some 4
  | Some "h5" => Some 5
  | Some "h6" => Some 6
  | _ => None
  end.

(** Heading content as specified: the paragraphs among the following
    siblings up to the next heading whose level is equal to or higher than
    (numerically at most) the level of the accepted heading. *)
Fixpoint spec_following_paragraphs (level : nat) (siblings : list node) : list string :=
  match siblings with
  | [] => []
  | n :: rest =>
      match heading_level n with
      | Some l =>
          if l <=? level then [] else spec_following_paragraphs level rest
      | None =>
          if bool_decide (node_name n = Some "p")
          then strip (get_text n) :: spec_following_paragraphs level rest
          else spec_following_paragraphs level rest
      end
  end.

Definition spec_heading_content (soup : node) (heading : element) : option string :=
  joined_content
    (spec_following_paragraphs (default 0 (heading_level (el heading)))
       (next_siblings soup heading)).

(** ** Sample pages *)

Definition page (body : list node) : node :=
  Tag "[document]" [] [Tag "html" [] [Tag "body" [] body]].

(** A page that parsed to nothing. *)
Definition empty_page : node := Tag "[document]" [] [].

(** One container whose first paragraph stands before its content block. *)
Definition teaser_container : node :=
  Tag "article" []
    [Tag "h2" [] [NavigableString "Release notes"];
     Tag "p" [] [NavigableString " intro "];
     Tag "div" [("class", "content")] [NavigableString "body"]].

Definition teaser_page : node := page [teaser_container].

Definition teaser_element : element := Element [0; 0; 0] teaser_container.

(** A page without containers: a top heading, a paragraph, a sub-heading and
    a second paragraph. *)
Definition chapter_heading : node :=
  Tag "h1" [] [NavigableString "A long enough heading"].

Definition chapter_page : node :=
  page [chapter_heading;
        Tag "p" [] [NavigableString "first"];
        Tag "h2" [] [NavigableString "Details"];
        Tag "p" [] [NavigableString "second"]].

Definition chapter_element : element := Element [0; 0; 0] chapter_heading.

(** A page with three article containers. *)
Definition post (link headline summary : string) : node :=
  Tag "article" []
    [Tag "h2" [] [Tag "a" [("href", link)] [NavigableString headline]];
     Tag "p" [] [NavigableString summary]].

Definition three_posts_page : node :=
  page [post "/a" "First post" "one";
        post "/b" "Second post" "two";
        post "/c" "Third post" "three"].

(** [urlparse(url).netloc] on the urls of the examples: the url with an
    unmatched bracket raises, the others have the host [www.blog.test]. *)
Definition sample_netloc (url : string) : outcome string :=
  if bool_decide (url = "http://[::1") then Raised else Returned "www.blog.test".

(** Two articles with one identity key, and a third one. *)
Definition draft : Article := mkArticle (Some "Post") (Some "/a") None (Some "draft").
Definition final : Article := mkArticle (Some "Post") (Some "/a") None (Some "final").
Definition other : Article := mkArticle (Some "Other") (Some "/b") None None.

(** ** The run over the blog list ([main.py]) *)

(** A blog of [data/blogs.json]: a dict that may lack any of its keys. *)
Record Blog : Type := mkBlog {
  blog_url : option string;
  blog_name : option string;
  blog_category : option string
}.

(** A diff result as [main] hands it to the newsletter generator: the result
    of [generate_diff] with the keys [blog_name], [blog_url] and [category]
    added; the generator reads these three with a default, so they are
    optional here. *)
Record DiffEntry : Type := mkEntry {
  entry_result : DiffResult;
  entry_blog_name : option string;
  entry_blog_url : option string;
  entry_category : option string
}.

Section Main.

Variable lxml : string → node.
Variable netloc : string → outcome string.
(** [scraper.scrape(url)]: the fetched page, or [None] when it raises. *)
Variable scrape : string → option string.

(** The body of [for blog in blogs] with its [try]/[except ... continue]:
    a missing [url] or [name] key and a failed fetch skip the blog before
    anything is stored, and an exception of [save_content] or
    [generate_diff] skips it with the storage as the call left it. *)
Definition process_blog (current_date : string)
    (state : filesystem * list DiffEntry) (blog : Blog)
  : filesystem * list DiffEntry :=
  let '(fs, all_diffs) := state in
  match blog_url blog with
  | None => state
  | Some url =>
      match blog_name blog with
      | None => state
      | Some name =>
          let category := default "general" (blog_category blog) in
          match scrape url with
          | None => state
          | Some html_content =>
              match save_content netloc fs url html_content current_date with
              | (Raised, fs) => (fs, all_diffs)
              | (Returned _, fs) =>
                  match generate_diff lxml netloc fs url current_date with
                  | (Returned (Some r), fs) =>
                      if has_changes r
                      then (fs, all_diffs ++
                                  [mkEntry r (Some name) (Some url) (Some category)])
                      else (fs, all_diffs)
                  | (_, fs) => (fs, all_diffs)
                  end
              end
          end
      end
  end.

(** The loop of [main]: the storage afterwards and [all_diffs]. *)
Definition process_blogs (current_date : string) (fs : filesystem)
    (blogs : list Blog) : filesystem * list DiffEntry :=
  fold_left (process_blog current_date) blogs (fs, []).

End Main.

(** The archive holds no snapshot of another date than [date_str]. *)
Definition only_snapshots_of (date_str : string) (fs : filesystem) : Prop :=
  ∀ domain directory file,
    archive fs !! domain = Some directory →
    is_Some (directory !! file) → file = date_str +:+ ".html".


(** ** Grouping for the newsletter ([newsletter_generator.py]) *)

(** [diff.get('category', 'general')] *)
Definition category_of (diff : DiffEntry) : string :=
  default "general" (entry_category diff).

(** The body of [for diff in diff_results]: a new category gets an empty
    list, then the diff is appended to the list of its category. *)
Definition categorize_step (categorized : list (string * list DiffEntry))
    (diff : DiffEntry) : list (string * list DiffEntry) :=
  let category := category_of diff in
  let categorized :=
    match dict_get category categorized with
    | None => dict_set category [] categorized
    | Some _ => categorized
    end in
  dict_set category (default [] (dict_get category categorized) ++ [diff])
    categorized.

(** [_categorize_diffs]: a dict from category to the list of its diffs. *)
Definition _categorize_diffs (diff_results : list DiffEntry)
  : list (string * list DiffEntry) :=
  fold_left categorize_step diff_results [].

(** [diff.get('blog_name', diff.get('domain', 'Unknown'))] *)
Definition blog_label (diff : DiffEntry) : string :=
  default (domain (entry_result diff)) (entry_blog_name diff).

(** [diff.get('blog_url', diff.get('url', ''))] *)
Definition blog_link (diff : DiffEntry) : string :=
  default (result_url (entry_result diff)) (entry_blog_url diff).

Record PromptBlog : Type := mkPromptBlog {
  prompt_blog_name : string;
  prompt_blog_url : string
}.

Record PromptArticle : Type := mkPromptArticle {
  prompt_title : string;
  prompt_url : string;
  prompt_content : string;
  prompt_date : string;
  prompt_blog : string
}.

(** A changed entry always carries the keys [title] and [url], with the value
    [None] when the article had none: [.get] returns that value, not its
    default. *)
Record PromptChanged : Type := mkPromptChanged {
  prompt_changed_title : option string;
  prompt_changed_url : option string;
  prompt_changed_blog : string
}.

Record PromptData : Type := mkPromptData {
  prompt_category : string;
  prompt_blogs : list PromptBlog;
  prompt_new_articles : list PromptArticle;
  prompt_changed_articles : list PromptChanged
}.

(** The body of [for diff in diffs] of [_prepare_prompt_data]. *)
Definition add_prompt_data
    (acc : list PromptBlog * list PromptArticle * list PromptChanged)
    (diff : DiffEntry)
  : list PromptBlog * list PromptArticle * list PromptChanged :=
  let '(blogs, new_list, changed_list) := acc in
  let blogs := blogs ++ [mkPromptBlog (blog_label diff) (blog_link diff)] in
  let new_list :=
    fold_left
      (λ new_list article,
         new_list ++
           [mkPromptArticle (default "Untitled" (title article))
              (default "" (url article)) (default "" (content article))
              (default "" (date article)) (blog_label diff)])
      (new_articles (entry_result diff)) new_list in
  let changed_list :=
    fold_left
      (λ changed_list article,
         changed_list ++
           [mkPromptChanged (changed_title article) (changed_url article)
              (blog_label diff)])
      (changed_articles (entry_result diff)) changed_list in
  (blogs, new_list, changed_list).

Definition _prepare_prompt_data (category : string) (diffs : list DiffEntry)
  : PromptData :=
  let '(blogs, new_list, changed_list) :=
    fold_left add_prompt_data diffs ([], [], []) in
  mkPromptData category blogs new_list changed_list.

(** ** File names ([utils.py]) *)

(** The characters the pattern replaces: backslash, slash, star, question
    mark, colon, double quote, the two angle brackets and the bar. *)
Definition invalid_filename_chars : list ascii :=
  ["\"; "/"; "*"; "?"; ":"; ascii_of_nat 34; "<"; ">"; "|"]%char.

(** [re.sub] of each such character by an underscore. *)
Fixpoint replace_invalid (s : string) : string :=
  match s with
  | EmptyString => EmptyString
  | String c r =>
      String (if bool_decide (c ∈ invalid_filename_chars) then "_"%char else c)
             (replace_invalid r)
  end.

(** [s[:n]] *)
Fixpoint string_take (n : nat) (s : string) : string :=
  match n, s with
  | S k, String c r => String c (string_take k r)
  | _, _ => EmptyString
  end.

Definition sanitize_filename (filename : string) : string :=
  let sanitized := replace_invalid filename in
  if 255 <? String.length sanitized then string_take 255 sanitized else sanitized.

(** * Properties *)

(** ** The extractor's loops in closed form *)

Lemma process_elements_spec soup els acc :
  process_elements soup els acc =
  acc ++ filter (λ a, has_title a = true) (map (_extract_article_data soup) els).
Proof.
  unfold process_elements. revert acc.
  induction els as [|e els IH]; intros acc; simpl.
  - by rewrite app_nil_r.
  - rewrite IH, filter_cons.
    destruct (has_title (_extract_article_data soup e)) eqn:Ht.
    + rewrite decide_True by done. by rewrite <- app_assoc.
    + rewrite decide_False by (by intros ?). done.
Qed.

Lemma process_elements_nil soup els :
  process_elements soup els [] =
  filter (λ a, has_title a = true) (map (_extract_article_data soup) els).
Proof. by rewrite process_elements_spec. Qed.

Lemma pattern_articles_unmatched soup sel :
  select sel (root soup) = [] → pattern_articles soup sel = [].
Proof. unfold pattern_articles. by intros ->. Qed.

(** One round of the selector loop, started with no article: the pattern's
    articles end the loop when there are some, else the next pattern is tried. *)
Lemma try_selectors_cons soup sel rest :
  try_selectors soup (sel :: rest) [] =
  match pattern_articles soup sel with
  | [] => try_selectors soup rest []
  | articles => articles
  end.
Proof.
  cbn [try_selectors]. destruct (select sel (root soup)) as [|e els] eqn:Hsel.
  - by rewrite pattern_articles_unmatched.
  - rewrite process_elements_nil. unfold pattern_articles. by rewrite Hsel.
Qed.

Lemma try_selectors_all_empty soup sels :
  Forall (λ sel, pattern_articles soup sel = []) sels →
  try_selectors soup sels [] = [].
Proof.
  induction 1 as [|sel sels Hsel _ IH]; [done|].
  by rewrite try_selectors_cons, Hsel.
Qed.

(** The selector loop returns the articles of the first pattern that has any,
    and nothing when no pattern has. *)
Lemma try_selectors_first soup sels :
  (∃ before sel later,
      sels = before ++ sel :: later ∧
      Forall (λ s, pattern_articles soup s = []) before ∧
      pattern_articles soup sel ≠ [] ∧
      try_selectors soup sels [] = pattern_articles soup sel)
  ∨ (Forall (λ s, pattern_articles soup s = []) sels ∧
     try_selectors soup sels [] = []).
Proof.
  induction sels as [|sel sels IH].
  - right. by split.
  - rewrite try_selectors_cons.
    destruct (pattern_articles soup sel) as [|a l] eqn:Hsel.
    + destruct IH as [(before & s & later & -> & Hb & Hs & Heq)|[Hall Heq]].
      * left. exists (sel :: before), s, later. repeat split; [by constructor|done..].
      * right. split; [by constructor|done].
    + left. exists [], sel, sels. rewrite Hsel. by repeat split.
Qed.

Lemma heading_pass_spec soup acc :
  heading_pass soup acc = acc ++ heading_articles soup.
Proof.
  unfold heading_pass, heading_articles.
  generalize (find_all ["h1"; "h2"; "h3"] (root soup)). intros hs. revert acc.
  induction hs as [|h hs IH]; intros acc; simpl.
  - by rewrite app_nil_r.
  - rewrite IH, filter_cons.
    destruct (_is_likely_article_title soup h) eqn:Hl.
    + rewrite decide_True by done. simpl. rewrite filter_cons.
      destruct (has_title (_extract_article_from_heading soup h)) eqn:Ht.
      * rewrite decide_True by done. by rewrite <- app_assoc.
      * rewrite decide_False by (by intros ?). done.
    + rewrite decide_False by (by intros ?). done.
Qed.

Lemma extract_from_soup_cases soup :
  extract_from_soup soup =
  match try_selectors soup article_selectors [] with
  | [] => heading_articles soup
  | articles => articles
  end.
Proof.
  unfold extract_from_soup.
  destruct (try_selectors soup article_selectors []); [|done].
  by rewrite heading_pass_spec.
Qed.

(** ** Trimming *)

Lemma lstrip_head s :
  lstrip s = EmptyString ∨ ∃ c r, lstrip s = String c r ∧ isspace c = false.
Proof.
  induction s as [|c r IH]; simpl; [by left|].
  destruct (isspace c) eqn:Hc; [done|]. right. by exists c, r.
Qed.

Lemma rstrip_nonspace_head c r :
  isspace c = false → rstrip (String c r) = String c (rstrip r).
Proof. intros Hc. simpl. destruct (rstrip r); by rewrite ?Hc. Qed.

Lemma rstrip_idempotent s : rstrip (rstrip s) = rstrip s.
Proof.
  induction s as [|c r IH]; [done|]. cbn [rstrip].
  destruct (rstrip r) as [|c' r'] eqn:Hr.
  - destruct (isspace c) eqn:Hc; [done|]. simpl. by rewrite Hc.
  - change (rstrip (String c (String c' r'))) with
      (match rstrip (String c' r') with
       | EmptyString => if isspace c then EmptyString else String c EmptyString
       | r'' => String c r''
       end).
    by rewrite IH.
Qed.

Lemma strip_idempotent s : strip (strip s) = strip s.
Proof.
  unfold strip. destruct (lstrip_head s) as [->|(c & r & -> & Hc)]; [done|].
  rewrite rstrip_nonspace_head by done. cbn [lstrip]. rewrite Hc.
  rewrite <- (rstrip_nonspace_head c r) by done. apply rstrip_idempotent.
Qed.

(** ** Titles *)

Lemma has_title_spec a :
  has_title a = true → ∃ t, title a = Some t ∧ t ≠ EmptyString.
Proof.
  unfold has_title. destruct (title a) as [t|]; [|done].
  intros Ht. exists t. split; [done|]. intros ->. done.
Qed.

Lemma title_set_url_from link a : title (set_url_from link a) = title a.
Proof. unfold set_url_from. by destruct (get_attr _ _). Qed.

Lemma title_set_date_from d a : title (set_date_from d a) = title a.
Proof. unfold set_date_from. by destruct (get_attr _ _). Qed.

(** The heading extraction emits the trimmed heading text as the title. *)
Lemma heading_title soup heading :
  title (_extract_article_from_heading soup heading) =
  Some (strip (get_text (el heading))).
Proof.
  unfold _extract_article_from_heading.
  destruct (collect_paragraphs _ _); cbn [title set_content];
    destruct (find_next _ _ _); rewrite ?title_set_date_from;
    destruct (find "a" heading); by rewrite ?title_set_url_from.
Qed.

(** An accepted heading has a trimmed text of 10 to 200 characters. *)
Lemma likely_title_length soup heading :
  _is_likely_article_title soup heading = true →
  10 ≤ String.length (strip (get_text (el heading))) ≤ 200.
Proof.
  unfold _is_likely_article_title.
  destruct (_ <? 10) eqn:H1; [done|]. destruct (200 <? _) eqn:H2; [done|].
  intros _. apply Nat.ltb_ge in H1, H2. lia.
Qed.

Lemma pattern_articles_titled soup sel :
  Forall (λ a, ∃ t, title a = Some t ∧ t ≠ EmptyString) (pattern_articles soup sel).
Proof.
  apply Forall_forall. intros a [Ht _]%list_elem_of_filter. by apply has_title_spec.
Qed.

Lemma heading_articles_titled soup :
  Forall (λ a, ∃ t, title a = Some t ∧ t ≠ EmptyString) (heading_articles soup).
Proof.
  apply Forall_forall. intros a [Ht _]%list_elem_of_filter. by apply has_title_spec.
Qed.

Lemma heading_articles_length soup :
  Forall (λ a, ∃ t, title a = Some t ∧ strip t = t ∧
                    10 ≤ String.length (strip t) ≤ 200)
         (heading_articles soup).
Proof.
  apply Forall_forall. intros a [_ Ha]%list_elem_of_filter.
  apply list_elem_of_fmap in Ha as (h & -> & [Hl _]%list_elem_of_filter).
  exists (strip (get_text (el h))). rewrite heading_title, !strip_idempotent.
  repeat split; apply (likely_title_length soup h Hl).
Qed.

(** ** Claims on the extractor *)

(** C7: the structural patterns are tried in their fixed order and the first
    one with at least one titled article supplies the whole result, so the
    result never mixes patterns; the heading fallback supplies the result
    exactly when no pattern has a titled article. *)
Theorem structural_patterns_short_circuit (lxml : string → node) (markup : string) :
  (∃ before sel later,
      article_selectors = before ++ sel :: later ∧
      Forall (λ s, pattern_articles (lxml markup) s = []) before ∧
      pattern_articles (lxml markup) sel ≠ [] ∧
      _extract_articles lxml markup = pattern_articles (lxml markup) sel)
  ∨ (Forall (λ s, pattern_articles (lxml markup) s = []) article_selectors ∧
     _extract_articles lxml markup = heading_articles (lxml markup)).
Proof.
  unfold _extract_articles. rewrite extract_from_soup_cases.
  destruct (try_selectors_first (lxml markup) article_selectors)
    as [(before & sel & later & Heq & Hb & Hs & Hres)|[Hall Hres]].
  - left. exists before, sel, later. repeat split; [done..|].
    rewrite Hres. by destruct (pattern_articles (lxml markup) sel).
  - right. split; [done|]. by rewrite Hres.
Qed.

(** C2: whatever the markup, every extracted article has a non-empty title,
    and when no pattern and no heading gives an article the result is the
    empty list. *)
Theorem extracted_titles_nonempty (lxml : string → node) (markup : string) :
  Forall (λ a, ∃ t, title a = Some t ∧ t ≠ EmptyString)
         (_extract_articles lxml markup) ∧
  (Forall (λ s, pattern_articles (lxml markup) s = []) article_selectors →
   heading_articles (lxml markup) = [] →
   _extract_articles lxml markup = []).
Proof.
  split.
  - unfold _extract_articles. rewrite extract_from_soup_cases.
    destruct (try_selectors_first (lxml markup) article_selectors)
      as [(_ & sel & _ & _ & _ & Hs & ->)|[_ ->]].
    + destruct (pattern_articles (lxml markup) sel) eqn:Heq; [done|].
      rewrite <- Heq. apply pattern_articles_titled.
    + apply heading_articles_titled.
  - intros Hall Hh. unfold _extract_articles. rewrite extract_from_soup_cases.
    by rewrite try_selectors_all_empty.
Qed.

(** The empty-result case at a page that parsed to nothing. *)
Lemma extracted_titles_nonempty_witness :
  Forall (λ a, ∃ t, title a = Some t ∧ t ≠ EmptyString)
         (_extract_articles (λ _, empty_page) "<p") ∧
  _extract_articles (λ _, empty_page) "<p" = [].
Proof.
  destruct (extracted_titles_nonempty (λ _, empty_page) "<p") as [Htitles Hempty].
  split; [exact Htitles|]. apply Hempty.
  - unfold article_selectors.
    repeat (constructor; [vm_compute; reflexivity|]). constructor.
  - vm_compute. reflexivity.
Defined.

(** C10: when no structural pattern gives an article, every extracted article
    comes from an accepted heading, and its title is the trimmed heading text
    that passed the length test: trimming changes nothing and the length is
    between 10 and 200. *)
Theorem heading_fallback_title_length (lxml : string → node) (markup : string) :
  Forall (λ s, pattern_articles (lxml markup) s = []) article_selectors →
  Forall (λ a, ∃ t, title a = Some t ∧ strip t = t ∧
                    10 ≤ String.length (strip t) ≤ 200)
         (_extract_articles lxml markup).
Proof.
  intros Hall. unfold _extract_articles. rewrite extract_from_soup_cases.
  rewrite try_selectors_all_empty by done. apply heading_articles_length.
Qed.

(** The fallback at a page without containers: one article, from the top
    heading. *)
Lemma heading_fallback_title_length_witness :
  Forall (λ s, pattern_articles chapter_page s = []) article_selectors ∧
  _extract_articles (λ _, chapter_page) "<h1>" =
    [mkArticle (Some "A long enough heading") None None (Some "first")] ∧
  Forall (λ a, ∃ t, title a = Some t ∧ strip t = t ∧
                    10 ≤ String.length (strip t) ≤ 200)
         (_extract_articles (λ _, chapter_page) "<h1>").
Proof.
  assert (Forall (λ s, pattern_articles chapter_page s = []) article_selectors)
    as Hall.
  { unfold article_selectors.
    repeat (constructor; [vm_compute; reflexivity|]). constructor. }
  split; [exact Hall|]. split; [vm_compute; reflexivity|].
  exact (heading_fallback_title_length (λ _, chapter_page) "<h1>" Hall).
Defined.

(** ** Dicts *)

Section dict.
Context {V : Type}.
Implicit Types (d : list (string * V)) (k j : string) (v : V).

Lemma dict_get_set k j v d :
  dict_get j (dict_set k v d) = if decide (k = j) then Some v else dict_get j d.
Proof.
  induction d as [|[k' w] r IH]; simpl.
  - repeat case_bool_decide; repeat case_decide; naive_solver.
  - repeat (case_bool_decide; simpl); rewrite ?IH;
      repeat case_decide; by simplify_eq.
Qed.

Lemma dict_get_None k d : k ∉ d.*1 → dict_get k d = None.
Proof.
  induction d as [|[k' w] r IH]; [done|]. simpl.
  intros [Hne Hr]%not_elem_of_cons. rewrite bool_decide_false by done. auto.
Qed.

Lemma dict_get_elem_of k v d : dict_get k d = Some v → (k, v) ∈ d.
Proof.
  induction d as [|[k' w] r IH]; [done|]. simpl. case_bool_decide.
  - intros [= ->]. subst. left.
  - intros ?. right. auto.
Qed.

Lemma dict_get_NoDup k v d : NoDup d.*1 → (k, v) ∈ d → dict_get k d = Some v.
Proof.
  induction d as [|[k' w] r IH]; [by intros _ ?%elem_of_nil|].
  simpl. intros [Hk Hr]%NoDup_cons [[= -> ->]|Hin]%elem_of_cons.
  - by rewrite bool_decide_true.
  - rewrite bool_decide_false; [auto|].
    intros ->. apply Hk. by apply (list_elem_of_fmap_2' fst _ (k, v)).
Qed.

Lemma dict_set_elem_of k v d kv : kv ∈ dict_set k v d → kv = (k, v) ∨ kv ∈ d.
Proof.
  induction d as [|[k' w] r IH]; simpl.
  - intros ->%list_elem_of_singleton. by left.
  - case_bool_decide; subst.
    + intros [->|?]%elem_of_cons; [by left|]. right. by right.
    + intros [->|?]%elem_of_cons; [right; left|].
      destruct IH; [done|by left|]. right. by right.
Qed.

Lemma keys_dict_set k v d :
  (dict_set k v d).*1 = if decide (k ∈ d.*1) then d.*1 else d.*1 ++ [k].
Proof.
  induction d as [|[k' w] r IH]; cbn [dict_set fmap list_fmap fst].
  - case_decide as Hk; [by apply elem_of_nil in Hk|done].
  - case_bool_decide; subst; cbn [fmap list_fmap fst].
    + rewrite decide_True; [done|left].
    + rewrite IH. destruct (decide (k ∈ r.*1)).
      * rewrite decide_True; [done|by right].
      * rewrite decide_False; [done|].
        intros [?|?]%elem_of_cons; congruence.
Qed.

Lemma NoDup_dict_set k v d : NoDup d.*1 → NoDup (dict_set k v d).*1.
Proof.
  intros Hd. rewrite keys_dict_set. case_decide; [done|].
  apply NoDup_app. split_and!; [done| |apply NoDup_singleton].
  intros x Hx ->%list_elem_of_singleton. done.
Qed.

(** Two dicts with the same keys in the same order and the same lookups are
    the same dict. *)
Lemma dict_ext d d' :
  d.*1 = d'.*1 → NoDup d.*1 → (∀ k, dict_get k d = dict_get k d') → d = d'.
Proof.
  revert d'. induction d as [|[k v] r IH]; intros [|[k' v'] r']; try done.
  simpl. intros [= <- Hkeys] [Hk Hr]%NoDup_cons Hget. f_equal.
  - specialize (Hget k). simpl in Hget.
    rewrite !bool_decide_true in Hget by done. congruence.
  - apply IH; [done..|]. intros j. specialize (Hget j). simpl in Hget.
    case_bool_decide; [|done]. subst.
    rewrite (dict_get_None j r), (dict_get_None j r'); try done.
    unfold fmap. by rewrite <- Hkeys.
Qed.

End dict.

(** ** The key-to-article map *)

Lemma article_map_get_from d l j :
  dict_get j (fold_left (λ d art, dict_set (identity_key art) art d) l d) =
  match last (filter (λ a, identity_key a = j) l) with
  | Some a => Some a
  | None => dict_get j d
  end.
Proof.
  revert d. induction l as [|a l IH]; intros d; [done|].
  cbn [fold_left]. rewrite IH, dict_get_set, filter_cons.
  destruct (decide (identity_key a = j)) as [Ha|Ha]; [|done].
  rewrite last_cons. by destruct (last _).
Qed.

Lemma article_map_keys_from d d' l l' :
  d.*1 = d'.*1 → identity_key <$> l = identity_key <$> l' →
  (fold_left (λ d art, dict_set (identity_key art) art d) l d).*1 =
  (fold_left (λ d art, dict_set (identity_key art) art d) l' d').*1.
Proof.
  revert d d' l'. induction l as [|a l IH]; intros d d' [|a' l'] Hd Hl;
    simplify_eq/=; [done|].
  apply IH; [|done]. rewrite !keys_dict_set. by rewrite Hd, H.
Qed.

Lemma article_map_NoDup_from d l :
  NoDup d.*1 →
  NoDup (fold_left (λ d art, dict_set (identity_key art) art d) l d).*1.
Proof.
  revert d. induction l as [|a l IH]; intros d Hd; [done|].
  apply IH. by apply NoDup_dict_set.
Qed.

Lemma article_map_own_key_from d l :
  (∀ k a, (k, a) ∈ d → identity_key a = k) →
  ∀ k a, (k, a) ∈ fold_left (λ d art, dict_set (identity_key art) art d) l d →
         identity_key a = k.
Proof.
  revert d. induction l as [|x l IH]; intros d Hd; [done|].
  apply IH. intros k a [[= -> ->]|?]%dict_set_elem_of; [done|by apply Hd].
Qed.

Lemma article_map_get l j :
  dict_get j (article_map l) = last (filter (λ a, identity_key a = j) l).
Proof. unfold article_map. rewrite article_map_get_from. by destruct (last _). Qed.

Lemma article_map_NoDup l : NoDup (article_map l).*1.
Proof. apply article_map_NoDup_from. constructor. Qed.

Lemma article_map_own_key l k a : (k, a) ∈ article_map l → identity_key a = k.
Proof. apply article_map_own_key_from. by intros ?? ?%elem_of_nil. Qed.

(** An article that a later one with the same key overwrites can be replaced
    by any article of that key without changing the map. *)
Lemma article_map_overwritten before earlier earlier' later :
  identity_key earlier' = identity_key earlier →
  (∃ a, a ∈ later ∧ identity_key a = identity_key earlier) →
  article_map (before ++ earlier' :: later) = article_map (before ++ earlier :: later).
Proof.
  intros Hkey (a & Ha & Hka). apply dict_ext.
  - apply article_map_keys_from; [done|].
    rewrite !fmap_app, !fmap_cons. by rewrite Hkey.
  - apply article_map_NoDup.
  - intros j. rewrite !article_map_get, !filter_app, !filter_cons, Hkey.
    destruct (decide (identity_key earlier = j)) as [<-|?]; [|done].
    assert (filter (λ x, identity_key x = identity_key earlier) later ≠ []) as Hne.
    { intros Hnil. exact (filter_nil_not_elem_of _ later a Hnil Hka Ha). }
    rewrite !last_app, !last_cons.
    apply last_is_Some in Hne as [x ->]. done.
Qed.

(** ** The comparator's loops in closed form *)

Lemma classify_current_fold prev_map items new_articles changed_articles :
  fold_left (classify_current prev_map) items (new_articles, changed_articles) =
  (new_articles ++
     omap (λ '(key, curr_art),
             match dict_get key prev_map with
             | None => Some curr_art
             | Some _ => None
             end) items,
   changed_articles ++
     omap (λ '(key, curr_art),
             match dict_get key prev_map with
             | None => None
             | Some prev_art =>
                 if decide (content curr_art ≠ content prev_art)
                 then Some (diff_obj prev_art curr_art) else None
             end) items).
Proof.
  revert new_articles changed_articles.
  induction items as [|[key curr_art] items IH]; intros new_articles changed_articles.
  - by rewrite !app_nil_r.
  - cbn [fold_left omap list_omap classify_current].
    destruct (dict_get key prev_map) as [prev_art|].
    + case_bool_decide.
      * destruct (decide (content curr_art ≠ content prev_art)); [|done].
        by rewrite IH, <- app_assoc.
      * destruct (decide (content curr_art ≠ content prev_art)); [done|].
        by rewrite IH.
    + by rewrite IH, <- app_assoc.
Qed.

Lemma classify_previous_fold curr_map items removed_articles :
  fold_left (classify_previous curr_map) items removed_articles =
  removed_articles ++
    omap (λ '(key, prev_art),
            match dict_get key curr_map with
            | None => Some prev_art
            | Some _ => None
            end) items.
Proof.
  revert removed_articles.
  induction items as [|[key prev_art] items IH]; intros removed_articles.
  - by rewrite app_nil_r.
  - cbn [fold_left omap list_omap classify_previous].
    destruct (dict_get key curr_map); rewrite IH; [done|by rewrite <- app_assoc].
Qed.

(** The entries of one key among the outputs computed from a dict with
    distinct keys: at most the one computed from the key's own entry. *)
Lemma filter_key_omap {V W : Type} (key_of : W → string)
    (g : string * V → option W) (d : list (string * V)) (k : string) :
  NoDup d.*1 →
  (∀ kv w, kv ∈ d → g kv = Some w → key_of w = kv.1) →
  filter (λ w, key_of w = k) (omap g d) =
  match dict_get k d with
  | Some v => option_list (g (k, v))
  | None => []
  end.
Proof.
  induction d as [|[k' v] r IH]; [done|].
  intros [Hk Hr]%NoDup_cons Hg. cbn [omap list_omap dict_get].
  assert (filter (λ w, key_of w = k) (omap g r) =
          match dict_get k r with Some v => option_list (g (k, v)) | None => [] end)
    as IH'.
  { apply IH; [done|]. intros kv w ?. apply Hg. by right. }
  destruct (g (k', v)) as [w|] eqn:Hw.
  - pose proof (Hg (k', v) w ltac:(left) Hw) as Hkw. simpl in Hkw.
    rewrite filter_cons. case_bool_decide; subst.
    + rewrite decide_True by done. rewrite IH', dict_get_None by done.
      by rewrite Hw.
    + rewrite decide_False by congruence. done.
  - case_bool_decide; subst; [|done].
    rewrite IH', dict_get_None by done. by rewrite Hw.
Qed.

Lemma changed_key_diff_obj prev_art curr_art :
  changed_key (diff_obj prev_art curr_art) = identity_key curr_art.
Proof. done. Qed.

(** ** Claims on the comparator *)

(** C1: for two article lists and any identity key, the entries of that key
    in the three output lists are decided by the two key-to-article maps: a
    key of the current map only gives one new article, a key of both maps
    gives one changed entry with both contents when the contents differ and
    nothing when they are equal, a key of the previous map only gives one
    removed article; and the key has entries in at most one of the lists. *)
Theorem comparator_classification (previous current : list Article) (key : string) :
  let prev_map := article_map previous in
  let curr_map := article_map current in
  let new_of_key :=
    filter (λ a, identity_key a = key) (compare_articles previous current).1.1 in
  let changed_of_key :=
    filter (λ c, changed_key c = key) (compare_articles previous current).1.2 in
  let removed_of_key :=
    filter (λ a, identity_key a = key) (compare_articles previous current).2 in
  new_of_key =
    match dict_get key curr_map, dict_get key prev_map with
    | Some curr_art, None => [curr_art]
    | _, _ => []
    end ∧
  changed_of_key =
    match dict_get key curr_map, dict_get key prev_map with
    | Some curr_art, Some prev_art =>
        if decide (content curr_art ≠ content prev_art)
        then [mkChanged (title curr_art) (url curr_art)
                (content prev_art) (content curr_art)]
        else []
    | _, _ => []
    end ∧
  removed_of_key =
    match dict_get key prev_map, dict_get key curr_map with
    | Some prev_art, None => [prev_art]
    | _, _ => []
    end ∧
  ((new_of_key = [] ∧ changed_of_key = []) ∨
   (new_of_key = [] ∧ removed_of_key = []) ∨
   (changed_of_key = [] ∧ removed_of_key = [])).
Proof.
  intros prev_map curr_map new_of_key changed_of_key removed_of_key.
  assert (new_of_key =
          match dict_get key curr_map, dict_get key prev_map with
          | Some curr_art, None => [curr_art]
          | _, _ => []
          end) as Hnew.
  { unfold new_of_key, compare_articles.
    rewrite classify_current_fold, classify_previous_fold. cbn [fst snd app].
    rewrite (filter_key_omap identity_key); [|apply article_map_NoDup|].
    - fold curr_map prev_map. destruct (dict_get key curr_map); [|done].
      by destruct (dict_get key prev_map).
    - intros [k a] w Hin Hw. cbn [fst]. fold prev_map in Hw.
      destruct (dict_get k prev_map); simplify_eq.
      by apply (article_map_own_key current). }
  assert (changed_of_key =
          match dict_get key curr_map, dict_get key prev_map with
          | Some curr_art, Some prev_art =>
              if decide (content curr_art ≠ content prev_art)
              then [diff_obj prev_art curr_art] else []
          | _, _ => []
          end) as Hchanged.
  { unfold changed_of_key, compare_articles.
    rewrite classify_current_fold, classify_previous_fold. cbn [fst snd app].
    rewrite (filter_key_omap changed_key); [|apply article_map_NoDup|].
    - fold curr_map prev_map. destruct (dict_get key curr_map); [|done].
      destruct (dict_get key prev_map); [|done]. by case_decide.
    - intros [k a] w Hin Hw. cbn [fst]. fold prev_map in Hw.
      destruct (dict_get k prev_map); simplify_eq.
      case_decide; simplify_eq. rewrite changed_key_diff_obj.
      by apply (article_map_own_key current). }
  assert (removed_of_key =
          match dict_get key prev_map, dict_get key curr_map with
          | Some prev_art, None => [prev_art]
          | _, _ => []
          end) as Hremoved.
  { unfold removed_of_key, compare_articles.
    rewrite classify_current_fold, classify_previous_fold. cbn [fst snd app].
    rewrite (filter_key_omap identity_key); [|apply article_map_NoDup|].
    - fold curr_map prev_map. destruct (dict_get key prev_map); [|done].
      by destruct (dict_get key curr_map).
    - intros [k a] w Hin Hw. cbn [fst]. fold curr_map in Hw.
      destruct (dict_get k curr_map); simplify_eq.
      by apply (article_map_own_key previous). }
  split_and!; [done..|].
  rewrite Hnew, Hchanged, Hremoved.
  destruct (dict_get key curr_map), (dict_get key prev_map); auto.
Qed.

(** C8: the key-to-article map of a list holds, for every key, exactly one
    entry, the last article of that key in list order; an earlier article of
    a key that occurs again later can be replaced by any article of that key
    without changing the map, and so without changing the comparison on
    either side. *)
Theorem duplicate_keys_last_wins (articles : list Article) (key : string) :
  dict_get key (article_map articles) =
    last (filter (λ a, identity_key a = key) articles) ∧
  NoDup (article_map articles).*1 ∧
  ∀ before earlier earlier' later other_side,
    articles = before ++ earlier :: later →
    identity_key earlier' = identity_key earlier →
    (∃ a, a ∈ later ∧ identity_key a = identity_key earlier) →
    article_map (before ++ earlier' :: later) = article_map articles ∧
    compare_articles (before ++ earlier' :: later) other_side =
      compare_articles articles other_side ∧
    compare_articles other_side (before ++ earlier' :: later) =
      compare_articles other_side articles.
Proof.
  split_and!; [apply article_map_get|apply article_map_NoDup|].
  intros before earlier earlier' later other_side -> Hkey Hlater.
  pose proof (article_map_overwritten before earlier earlier' later Hkey Hlater)
    as Hmap.
  unfold compare_articles. by rewrite Hmap.
Qed.

(** A draft overwritten by the final version of the same key: the final one
    is looked up, and the draft can be replaced by a bare entry of that key. *)
Lemma duplicate_keys_last_wins_witness :
  dict_get "/a" (article_map [draft; other; final]) = Some final ∧
  article_map [mkArticle None (Some "/a") None None; other; final] =
    article_map [draft; other; final] ∧
  compare_articles [mkArticle None (Some "/a") None None; other; final] [final] =
    compare_articles [draft; other; final] [final].
Proof.
  destruct (duplicate_keys_last_wins [draft; other; final] "/a")
    as (Hget & _ & Hreplace).
  split; [exact Hget|].
  destruct (Hreplace [] draft (mkArticle None (Some "/a") None None)
              [other; final] [final]) as (Hmap & Hleft & _).
  - reflexivity.
  - reflexivity.
  - exists final. split; [|reflexivity]. right. left.
  - split; [exact Hmap|exact Hleft].
Defined.

(** ** First matches *)

(** The first element of a list with a property splits the list. *)
Lemma head_filter_split {A : Type} (P : A → Prop) `{!∀ x, Decision (P x)} (l : list A) :
  (∃ before x later,
      l = before ++ x :: later ∧ Forall (λ y, ¬ P y) before ∧ P x ∧
      head (filter P l) = Some x)
  ∨ (Forall (λ y, ¬ P y) l ∧ filter P l = []).
Proof.
  induction l as [|y l IH].
  - right. by split.
  - destruct (decide (P y)) as [Hy|Hy].
    + left. exists [], y, l. rewrite filter_cons_True by done. by repeat split.
    + rewrite filter_cons_False by done.
      destruct IH as [(before & x & later & -> & Hb & Hx & Hh)|[Hall Hnil]].
      * left. exists (y :: before), x, later. repeat split; [by constructor|done..].
      * right. split; [by constructor|done].
Qed.

Lemma paragraph_matches_content_selector n :
  name_in ["p"] n = true → matches content_selector n = true.
Proof.
  destruct n as [| |name attrs cs]; [done..|].
  unfold name_in. cbn [node_name]. intros Hp%bool_decide_eq_true.
  apply list_elem_of_singleton in Hp as ->.
  unfold matches. apply existsb_exists. exists (TypeSel "p"). split.
  - unfold content_selector. simpl. tauto.
  - done.
Qed.

(** A container with a paragraph always has a first content match, so the
    joined-paragraphs branch of the content step is never taken. *)
Lemma paragraph_gives_content_match element :
  find_all ["p"] element ≠ [] → is_Some (select_one content_selector element).
Proof.
  intros Hp. unfold select_one, select.
  destruct (find_all ["p"] element) as [|p ps] eqn:Hfind; [done|].
  assert (p ∈ find_all ["p"] element) as Hin by (rewrite Hfind; left).
  apply list_elem_of_filter in Hin as [Hname Hin].
  apply paragraph_matches_content_selector in Hname.
  destruct (filter _ (descendants element)) as [|c l] eqn:Hsel; [|by eexists].
  exfalso. by apply (filter_nil_not_elem_of _ _ p Hsel).
Qed.

Lemma content_set_url_from link a : content (set_url_from link a) = content a.
Proof. unfold set_url_from. by destruct (get_attr _ _). Qed.

Lemma content_set_date_from d a : content (set_date_from d a) = content a.
Proof. unfold set_date_from. by destruct (get_attr _ _). Qed.

(** The content key of the container extraction, step by step. *)
Lemma container_content soup element :
  content (_extract_article_data soup element) =
  match select_one content_selector element with
  | Some c => Some (strip (get_text (el c)))
  | None =>
      match find "p" element with
      | Some _ =>
          Some (join newline
                  (map (λ p, strip (get_text (el p))) (find_all ["p"] element)))
      | None =>
          match select_one title_selector element with
          | Some t => (λ p, strip (get_text (el p))) <$> find_next soup ["p"] t
          | None => None
          end
      end
  end.
Proof.
  unfold _extract_article_data.
  destruct (select_one title_selector element) as [t|];
    destruct (select_one content_selector element) as [c|];
    destruct (find "p" element) as [p|];
    destruct (select_one date_selector element) as [d|];
    cbn [title content set_title set_content empty_article];
    repeat match goal with
      | |- context [match find ?x ?y with _ => _ end] => destruct (find x y)
      | |- context [match find_with_string ?x ?y with _ => _ end] =>
          destruct (find_with_string x y)
      | |- context [match find_next ?s ?x ?y with _ => _ end] =>
          destruct (find_next s x y)
      | |- context [title (set_date_from ?x ?y)] => rewrite (title_set_date_from x y)
      | |- context [title (set_url_from ?x ?y)] => rewrite (title_set_url_from x y)
      | |- context [content (set_date_from ?x ?y)] => rewrite (content_set_date_from x y)
      | |- context [content (set_url_from ?x ?y)] => rewrite (content_set_url_from x y)
      | _ => progress cbn [title content set_title set_content empty_article fmap option_fmap option_map]
      end; done.
Qed.

(** What the content selector group accepts: a paragraph tag, or a tag that
    carries one of the four content classes. *)
Lemma matches_content_selector n :
  matches content_selector n = true ↔
  is_tag n = true ∧
  (node_name n = Some "p" ∨
   ∃ c, c ∈ ["content"; "entry-content"; "description"; "summary"] ∧
        c ∈ class_tokens n).
Proof.
  destruct n as [s|s|name attrs cs].
  - split; [done|by intros [? _]].
  - split; [done|by intros [? _]].
  - unfold matches, content_selector. cbn [existsb matches_simple is_tag andb].
    rewrite !orb_true_iff, !bool_decide_eq_true. split.
    + intros [?|[?|[?|[?|[?|?]]]]]; try done; split; try done;
        try (right; eexists; split; [|eassumption]; set_solver).
      by left.
    + intros [_ [?|(c & Hc & ?)]]; [tauto|].
      rewrite !elem_of_cons, elem_of_nil in Hc.
      destruct Hc as [->|[->|[->|[->|[]]]]]; tauto.
Qed.

(** ** Claims on the content rules *)

(** C5, as the code has it: the content of a container is the trimmed text of
    the first descendant, in document order, that the group
    [.content, .entry-content, .description, .summary, p] accepts, a paragraph
    counting like a content class; when no descendant is accepted the
    container has no paragraph either, and the content is the first paragraph
    after the title element if there is one. *)
Theorem container_content_first_match (soup : node) (element : element) :
  (∀ n, matches content_selector n = true ↔
        is_tag n = true ∧
        (node_name n = Some "p" ∨
         ∃ c, c ∈ ["content"; "entry-content"; "description"; "summary"] ∧
              c ∈ class_tokens n)) ∧
  ((∃ before c later,
       descendants element = before ++ c :: later ∧
       Forall (λ d, matches content_selector (el d) ≠ true) before ∧
       matches content_selector (el c) = true ∧
       content (_extract_article_data soup element) = Some (strip (get_text (el c))))
   ∨ (Forall (λ d, matches content_selector (el d) ≠ true) (descendants element) ∧
      find_all ["p"] element = [] ∧
      content (_extract_article_data soup element) =
        match select_one title_selector element with
        | Some t => (λ p, strip (get_text (el p))) <$> find_next soup ["p"] t
        | None => None
        end)).
Proof.
  split; [apply matches_content_selector|].
  rewrite container_content.
  assert (select_one content_selector element =
          head (filter (λ d, matches content_selector (el d) = true)
                  (descendants element))) as Hsel by done.
  destruct (head_filter_split (λ d, matches content_selector (el d) = true)
              (descendants element))
    as [(before & c & later & Hsplit & Hb & Hc & Hhead)|[Hall Hnil]].
  - left. exists before, c, later. by rewrite Hsel, Hhead.
  - right. rewrite Hnil in Hsel. rewrite Hsel.
    destruct (find_all ["p"] element) as [|p ps] eqn:Hp.
    + unfold find. by rewrite Hp.
    + destruct (paragraph_gives_content_match element) as [c Hc];
        [by rewrite Hp|].
      by rewrite Hsel in Hc.
Qed.

(** The specified rule fails on a container whose first paragraph stands
    before its content block: the code takes the paragraph, the rule the
    content block. *)
Lemma container_content_counterexample :
  select [TypeSel "article"] (root teaser_page) = [teaser_element] ∧
  select_one content_class_selector teaser_element =
    Some (Element [0; 0; 0; 2]
            (Tag "div" [("class", "content")] [NavigableString "body"])) ∧
  spec_container_content teaser_element = Some "body" ∧
  content (_extract_article_data teaser_page teaser_element) = Some "intro" ∧
  content (_extract_article_data teaser_page teaser_element) ≠
    spec_container_content teaser_element.
Proof. vm_compute. by repeat split. Qed.

(** ** The paragraph walk *)

Lemma paragraph_texts_cons_paragraph n l :
  node_name n = Some "p" →
  paragraph_texts (n :: l) = strip (get_text n) :: paragraph_texts l.
Proof. intros Hn. unfold paragraph_texts. by rewrite filter_cons_True. Qed.

Lemma paragraph_texts_cons_other n l :
  node_name n ≠ Some "p" → paragraph_texts (n :: l) = paragraph_texts l.
Proof. intros Hn. unfold paragraph_texts. by rewrite filter_cons_False. Qed.

(** The walk collects the paragraphs of the siblings before the first one at
    which it stops. *)
Lemma collect_paragraphs_walk siblings paragraphs :
  ∃ walked rest,
    siblings = walked ++ rest ∧
    Forall (λ n, walk_stops n = false) walked ∧
    (rest = [] ∨ ∃ s r, rest = s :: r ∧ walk_stops s = true) ∧
    collect_paragraphs siblings paragraphs = paragraphs ++ paragraph_texts walked.
Proof.
  revert paragraphs. induction siblings as [|n siblings IH]; intros paragraphs.
  - exists [], []. split_and!; [done|done|by left|].
    change (paragraph_texts []) with (@nil string). by rewrite app_nil_r.
  - cbn [collect_paragraphs]. unfold walk_stops.
    destruct (truthy n) eqn:Htruthy; cbn [negb].
    + case_bool_decide as Hp.
      * destruct (IH (paragraphs ++ [strip (get_text n)]))
          as (walked & rest & -> & Hwalked & Hrest & ->).
        exists (n :: walked), rest. repeat split; [|done|].
        -- constructor; [|done]. rewrite Htruthy. unfold name_in. by rewrite Hp.
        -- by rewrite paragraph_texts_cons_paragraph, <- app_assoc.
      * destruct (name_in ["h1"; "h2"; "h3"; "h4"] n) eqn:Hh.
        -- exists [], (n :: siblings). split_and!; [done|done| |].
           ++ right. exists n, siblings. by rewrite Htruthy, Hh.
           ++ change (paragraph_texts []) with (@nil string). by rewrite app_nil_r.
        -- destruct (IH paragraphs) as (walked & rest & -> & Hwalked & Hrest & ->).
           exists (n :: walked), rest. repeat split; [|done|].
           ++ constructor; [|done]. by rewrite Htruthy, Hh.
           ++ by rewrite paragraph_texts_cons_other.
    + exists [], (n :: siblings). split_and!; [done|done| |].
      * right. exists n, siblings. by rewrite Htruthy.
      * change (paragraph_texts []) with (@nil string). by rewrite app_nil_r.
Qed.

Lemma heading_content soup heading :
  content (_extract_article_from_heading soup heading) =
  joined_content (collect_paragraphs (next_siblings soup heading) []).
Proof.
  unfold _extract_article_from_heading, joined_content.
  destruct (collect_paragraphs _ _); [|done].
  destruct (find_next _ _ _); rewrite ?content_set_date_from;
    destruct (find "a" heading); by rewrite ?content_set_url_from.
Qed.

(** C6, as the code has it: the content of a heading article is the
    newline-joined trimmed text of the paragraph tags among the heading's
    direct following siblings, up to the first sibling that is a heading
    [h1] to [h4] of any level (or an empty string node); other siblings in
    between are skipped, and there is no content when no paragraph is met. *)
Theorem heading_content_walk (soup : node) (heading : element) :
  ∃ walked rest,
    next_siblings soup heading = walked ++ rest ∧
    Forall (λ n, truthy n = true ∧ name_in ["h1"; "h2"; "h3"; "h4"] n = false) walked ∧
    (rest = [] ∨
     ∃ s r, rest = s :: r ∧
            (truthy s = false ∨ name_in ["h1"; "h2"; "h3"; "h4"] s = true)) ∧
    content (_extract_article_from_heading soup heading) =
      joined_content (paragraph_texts walked).
Proof.
  destruct (collect_paragraphs_walk (next_siblings soup heading) [])
    as (walked & rest & Hsplit & Hwalked & Hrest & Hcollect).
  exists walked, rest. split_and!; [done| | |].
  - eapply Forall_impl; [exact Hwalked|]. intros n. unfold walk_stops.
    destruct (truthy n), (name_in _ n); naive_solver.
  - destruct Hrest as [->|(s & r & -> & Hs)]; [by left|].
    right. exists s, r. split; [done|]. unfold walk_stops in Hs.
    destruct (truthy s), (name_in _ s); naive_solver.
  - by rewrite heading_content, Hcollect.
Qed.

(** The specified rule fails below a top-level heading: the sub-heading ends
    the code's walk, while a heading of lower level does not end the
    specified one. *)
Lemma heading_content_counterexample :
  find_all ["h1"; "h2"; "h3"] (root chapter_page) !! 0 = Some chapter_element ∧
  _is_likely_article_title chapter_page chapter_element = true ∧
  content (_extract_article_from_heading chapter_page chapter_element) =
    Some "first" ∧
  spec_heading_content chapter_page chapter_element =
    Some ("first" +:+ newline +:+ "second") ∧
  content (_extract_article_from_heading chapter_page chapter_element) ≠
    spec_heading_content chapter_page chapter_element.
Proof. vm_compute. by repeat split. Qed.

(** ** Claims on the diff result *)

Lemma nonempty_spec {A : Type} (l : list A) : nonempty l = true ↔ l ≠ [].
Proof. by destruct l. Qed.

Lemma compare_versions_consistent lxml previous_content current_content url
    domain previous_date current_date_str :
  has_changes_consistent
    (_compare_versions lxml previous_content current_content url domain
       previous_date current_date_str).
Proof.
  unfold _compare_versions, has_changes_consistent.
  destruct (compare_articles _ _) as [[added changed] removed].
  cbn [has_changes new_articles changed_articles removed_articles].
  rewrite !orb_true_iff, !nonempty_spec. tauto.
Qed.

Lemma everything_new_consistent url domain current_date_str articles :
  has_changes_consistent (everything_new url domain current_date_str articles).
Proof.
  unfold everything_new, has_changes_consistent.
  cbn [has_changes new_articles changed_articles removed_articles].
  rewrite nonempty_spec. split; [by left|]. by intros [?|[?|?]].
Qed.

(** C3: on the compare path, on the path without a previous snapshot, and so
    for every result [generate_diff] returns, [has_changes] is true exactly
    when one of the three lists is not empty. *)
Theorem has_changes_iff_some_list_nonempty (lxml : string → node)
    (netloc : string → outcome string) (fs : filesystem)
    (url current_date_str previous_content current_content domain previous_date : string)
    (articles : list Article) :
  has_changes_consistent
    (_compare_versions lxml previous_content current_content url domain
       previous_date current_date_str) ∧
  has_changes_consistent (everything_new url domain current_date_str articles) ∧
  match (generate_diff lxml netloc fs url current_date_str).1 with
  | Returned (Some diff_result) =>
      has_changes diff_result = true ↔
      new_articles diff_result ≠ [] ∨ changed_articles diff_result ≠ [] ∨
      removed_articles diff_result ≠ []
  | _ => True
  end.
Proof.
  split_and!;
    [apply compare_versions_consistent|apply everything_new_consistent|].
  unfold generate_diff. destruct (get_domain netloc url) as [|dom]; [done|].
  destruct (read_snapshot _ _ _) as [content|]; [|done].
  destruct (get_previous_content _ _ _) as [|[[pc pd]|]]; cbn [fst]; [done| |].
  - apply compare_versions_consistent.
  - apply everything_new_consistent.
Qed.

(** C9, as the code has it: when the domain of the url can be extracted and
    the current snapshot is missing, [generate_diff] returns no result and
    leaves the storage as it was, and this is the only case in which it
    returns no result; when [urlparse] rejects the url, [generate_diff]
    raises instead, before the snapshot is looked up, and the storage is
    also left as it was. *)
Theorem missing_snapshot_not_found (lxml : string → node)
    (netloc : string → outcome string) (fs : filesystem)
    (url current_date_str : string) :
  (∀ domain,
     get_domain netloc url = Returned domain →
     read_snapshot fs domain current_date_str = None →
     generate_diff lxml netloc fs url current_date_str = (Returned None, fs)) ∧
  ((generate_diff lxml netloc fs url current_date_str).1 = Returned None ↔
   ∃ domain, get_domain netloc url = Returned domain ∧
             read_snapshot fs domain current_date_str = None) ∧
  (get_domain netloc url = Raised →
   generate_diff lxml netloc fs url current_date_str = (Raised, fs)) ∧
  ((generate_diff lxml netloc fs url current_date_str).1 = Raised →
   (generate_diff lxml netloc fs url current_date_str).2 = fs).
Proof.
  unfold generate_diff. split_and!.
  - intros domain -> Hread. by rewrite Hread.
  - destruct (get_domain netloc url) as [|domain].
    + split; [done|]. by intros (? & ? & ?).
    + destruct (read_snapshot _ _ _) as [content|] eqn:Hread.
      * split; [by destruct (get_previous_content _ _ _)|].
        intros (? & [= <-] & ?). congruence.
      * split; [|done]. intros _. by exists domain.
  - by intros ->.
  - destruct (get_domain netloc url) as [|domain]; [done|].
    destruct (read_snapshot _ _ _); [|done].
    by destruct (get_previous_content _ _ _).
Qed.

(** An empty archive and a url that parses: no result, nothing stored. *)
Lemma missing_snapshot_not_found_witness :
  generate_diff (λ _, empty_page) sample_netloc (mkFs ∅ ∅)
    "https://www.blog.test/" "2024-01-01" = (Returned None, mkFs ∅ ∅).
Proof.
  destruct (missing_snapshot_not_found (λ _, empty_page) sample_netloc
              (mkFs ∅ ∅) "https://www.blog.test/" "2024-01-01")
    as (Hmissing & _).
  apply (Hmissing "blog.test"); vm_compute; reflexivity.
Defined.

(** The claim as stated fails at a url that [urlparse] rejects: no snapshot
    exists at all, and [generate_diff] raises where the claim has it return
    no result. *)
Lemma missing_snapshot_counterexample :
  (∀ domain date_str, read_snapshot (mkFs ∅ ∅) domain date_str = None) ∧
  get_domain sample_netloc "http://[::1" = Raised ∧
  generate_diff (λ _, empty_page) sample_netloc (mkFs ∅ ∅)
    "http://[::1" "2024-01-01" = (Raised, mkFs ∅ ∅) ∧
  (generate_diff (λ _, empty_page) sample_netloc (mkFs ∅ ∅)
     "http://[::1" "2024-01-01").1 ≠ Returned None.
Proof.
  split_and!; [|by vm_compute..].
  intros domain date_str. unfold read_snapshot. cbn [archive].
  by rewrite lookup_empty.
Qed.

(** ** The first run *)

Lemma omap_all_None {A B : Type} (g : A → option B) (l : list A) :
  (∀ x, x ∈ l → g x = None) → omap g l = [].
Proof.
  induction l as [|x l IH]; [done|]. intros Hg. cbn [omap list_omap].
  rewrite (Hg x) by left. apply IH. intros y ?. apply Hg. by right.
Qed.

(** A list of articles compared with itself has no change. *)
Lemma compare_articles_self articles :
  compare_articles articles articles = ([], [], []).
Proof.
  unfold compare_articles.
  rewrite classify_current_fold, classify_previous_fold. cbn [app].
  assert (∀ k a, (k, a) ∈ article_map articles →
                 dict_get k (article_map articles) = Some a) as Hget.
  { intros k a. apply dict_get_NoDup, article_map_NoDup. }
  rewrite !omap_all_None; [done|..]; intros [k a] Hin; rewrite (Hget k a Hin);
    first [done | by destruct (decide (content a ≠ content a))].
Qed.

Lemma endswith_append suffix s : endswith suffix (s +:+ suffix) = true.
Proof.
  induction s as [|c s IH].
  - change (EmptyString +:+ suffix) with suffix.
    destruct suffix; cbn [endswith]; by rewrite bool_decide_true.
  - change (String c s +:+ suffix) with (String c (s +:+ suffix)).
    cbn [endswith]. rewrite IH. apply orb_true_r.
Qed.

(** Once the current snapshot is in the archive, [get_previous_content]
    finds a file: the branch of [generate_diff] for a missing previous
    snapshot cannot be reached. *)
Lemma current_snapshot_is_found netloc fs url domain current_date_str content :
  get_domain netloc url = Returned domain →
  read_snapshot fs domain current_date_str = Some content →
  ∃ previous, get_previous_content netloc fs url = Returned (Some previous).
Proof.
  unfold read_snapshot, get_previous_content. intros ->.
  destruct (archive fs !! domain) as [directory|]; [|done].
  cbn [mbind option_bind].
  destruct (directory !! (current_date_str +:+ ".html")) as [raw|] eqn:Hfile;
    [intros _|done].
  assert (current_date_str +:+ ".html" ∈
          filter (λ f, endswith ".html" f = true) (map_to_list directory).*1)
    as Hin.
  { apply list_elem_of_filter. split; [apply endswith_append|].
    apply (list_elem_of_fmap_2' fst _ (current_date_str +:+ ".html", raw));
      [|done]. by apply elem_of_map_to_list. }
  destruct (filter _ _); [by apply elem_of_nil in Hin|]. by eexists.
Qed.

(** With the current snapshot as the only file of the archive directory,
    the snapshot is compared with itself: no article is reported and the
    previous date is the current file's own name without [.html]. *)
Lemma single_snapshot_diff lxml netloc fs url domain current_date_str content :
  get_domain netloc url = Returned domain →
  archive fs !! domain = Some {[current_date_str +:+ ".html" := content]} →
  (generate_diff lxml netloc fs url current_date_str).1 =
    Returned
      (Some (mkDiff url domain current_date_str
               (Some (remove_all ".html" 0 (current_date_str +:+ ".html")))
               false [] [] [])).
Proof.
  intros Hdomain Hdir.
  unfold generate_diff, read_snapshot, get_previous_content.
  rewrite Hdomain, Hdir. cbn [mbind option_bind]. rewrite lookup_singleton_eq.
  rewrite map_to_list_singleton. cbn [fmap list_fmap fst option_fmap option_map].
  rewrite filter_cons_True by apply endswith_append. rewrite filter_nil.
  change (sort_reverse [current_date_str +:+ ".html"])
    with [current_date_str +:+ ".html"].
  cbn [length Nat.ltb Nat.leb fst].
  change ([current_date_str +:+ ".html"] !!! 0) with (current_date_str +:+ ".html").
  rewrite lookup_total_singleton_eq.
  unfold _compare_versions. by rewrite compare_articles_self.
Qed.

(** C4, the code at a first run: the snapshot of a page with three article
    containers is saved into an empty archive and [generate_diff] is called
    for the same date.  [get_previous_content] returns that very snapshot as
    the previous one, so the result names the current date as previous date
    and reports no article and no change. *)
Theorem first_run_reports_nothing :
  length (_extract_articles (λ _, three_posts_page) "<html>") = 3 ∧
  get_previous_content (λ _, Returned "www.blog.test")
    (save_content (λ _, Returned "www.blog.test") (mkFs ∅ ∅)
       "https://www.blog.test/" "<html>" "2024-01-01").2
    "https://www.blog.test/" = Returned (Some ("<html>", "2024-01-01")) ∧
  (generate_diff (λ _, three_posts_page) (λ _, Returned "www.blog.test")
     (save_content (λ _, Returned "www.blog.test") (mkFs ∅ ∅)
        "https://www.blog.test/" "<html>" "2024-01-01").2
     "https://www.blog.test/" "2024-01-01").1 =
    Returned
      (Some (mkDiff "https://www.blog.test/" "blog.test" "2024-01-01"
               (Some "2024-01-01") false [] [] [])).
Proof. vm_compute. by repeat split. Qed.

(** * Further properties of the program *)

(** ** Storage *)

Lemma generate_diff_archive lxml netloc fs url current_date_str :
  archive (generate_diff lxml netloc fs url current_date_str).2 = archive fs.
Proof.
  unfold generate_diff. destruct (get_domain netloc url); [done|].
  destruct (read_snapshot _ _ _); [|done].
  by destruct (get_previous_content _ _ _).
Qed.

Lemma read_snapshot_write fs domain content date_str :
  read_snapshot (write_snapshot fs domain content date_str) domain date_str =
  Some (universal_newlines content).
Proof.
  unfold read_snapshot, write_snapshot. cbn [archive].
  rewrite lookup_insert_eq. cbn [mbind option_bind].
  by rewrite lookup_insert_eq.
Qed.

(** A text without CR is read as it is. *)
Lemma universal_newlines_plain s :
  Forall (λ c, c ≠ ascii_of_nat 13) (String.list_ascii_of_string s) →
  universal_newlines s = s.
Proof.
  induction s as [|c s IH]; [done|]. cbn [String.list_ascii_of_string].
  intros [Hc Hs]%Forall_cons. cbn [universal_newlines].
  rewrite bool_decide_false by done. by rewrite IH.
Qed.

(** A text that was read holds no CR. *)
Lemma universal_newlines_no_cr s :
  Forall (λ c, c ≠ ascii_of_nat 13)
         (String.list_ascii_of_string (universal_newlines s)).
Proof.
  assert (∀ n s, String.length s ≤ n →
            Forall (λ c, c ≠ ascii_of_nat 13)
                   (String.list_ascii_of_string (universal_newlines s)))
    as Hgen; [|by apply (Hgen (String.length s))].
  clear s. induction n as [|n IH]; intros [|c s] Hlen; cbn in Hlen;
    try (by constructor); [lia|].
  cbn [universal_newlines]. case_bool_decide as Hc.
  - cbn [String.list_ascii_of_string]. constructor; [done|].
    destruct s as [|c' s]; [constructor|]. case_bool_decide.
    + apply IH. cbn in Hlen. lia.
    + apply IH. lia.
  - cbn [String.list_ascii_of_string]. constructor; [done|]. apply IH. lia.
Qed.

Lemma append_inj_r (s1 s2 t : string) : s1 +:+ t = s2 +:+ t → s1 = s2.
Proof.
  assert (∀ s, String.length (s +:+ t) = String.length s + String.length t)
    as Hlen.
  { intros s. induction s as [|c s IH]; [done|].
    change (String c s +:+ t) with (String c (s +:+ t)). cbn [String.length].
    by rewrite IH. }
  revert s2. induction s1 as [|c s1 IH]; intros [|c' s2].
  - done.
  - intros Heq. apply (f_equal String.length) in Heq.
    change (EmptyString +:+ t) with t in Heq. rewrite Hlen in Heq.
    cbn [String.length] in Heq. lia.
  - intros Heq. apply (f_equal String.length) in Heq.
    change (EmptyString +:+ t) with t in Heq. rewrite Hlen in Heq.
    cbn [String.length] in Heq. lia.
  - change (String c s1 +:+ t) with (String c (s1 +:+ t)).
    change (String c' s2 +:+ t) with (String c' (s2 +:+ t)).
    intros [= -> Heq]. f_equal. by apply IH.
Qed.

(** X1 ([save_content], then [generate_diff], the order of [main]): when
    the domain of the url can be extracted, the snapshot just saved is read
    back with every CR LF and every lone CR turned into LF, hence as it was
    written when it holds no CR, and reading is stable from then on; every
    other snapshot of the archive is left as it was; and [generate_diff] for
    the same blog and date then returns a result.  When [urlparse] rejects
    the url, [save_content] raises and nothing is written. *)
Theorem saved_snapshot_is_diffed (lxml : string → node)
    (netloc : string → outcome string) (fs : filesystem)
    (url domain content date_str : string) :
  (get_domain netloc url = Returned domain →
   (save_content netloc fs url content date_str).1 = Returned tt ∧
   read_snapshot (save_content netloc fs url content date_str).2 domain date_str =
     Some (universal_newlines content) ∧
   (Forall (λ c, c ≠ ascii_of_nat 13) (String.list_ascii_of_string content) →
    read_snapshot (save_content netloc fs url content date_str).2 domain
      date_str = Some content) ∧
   universal_newlines (universal_newlines content) = universal_newlines content ∧
   (∀ other_domain other_date,
      (other_domain, other_date) ≠ (domain, date_str) →
      read_snapshot (save_content netloc fs url content date_str).2
        other_domain other_date = read_snapshot fs other_domain other_date) ∧
   ∃ diff_result,
     (generate_diff lxml netloc
        (save_content netloc fs url content date_str).2 url date_str).1 =
     Returned (Some diff_result)) ∧
  (get_domain netloc url = Raised →
   save_content netloc fs url content date_str = (Raised, fs)).
Proof.
  unfold save_content. split; [|by intros ->].
  intros Hdomain. rewrite Hdomain. cbn [fst snd]. split_and!.
  - done.
  - apply read_snapshot_write.
  - intros Hplain. by rewrite read_snapshot_write, universal_newlines_plain.
  - apply universal_newlines_plain, universal_newlines_no_cr.
  - intros other_domain other_date Hne. unfold read_snapshot, write_snapshot.
    cbn [archive]. f_equal.
    destruct (decide (other_domain = domain)) as [->|Hdom].
    + rewrite lookup_insert_eq. cbn [mbind option_bind].
      rewrite lookup_insert_ne.
      * by destruct (archive fs !! domain).
      * intros Heq%append_inj_r. congruence.
    + by rewrite lookup_insert_ne.
  - unfold generate_diff. rewrite Hdomain, read_snapshot_write.
    destruct (current_snapshot_is_found netloc
                (write_snapshot fs domain content date_str) url domain date_str
                (universal_newlines content) Hdomain (read_snapshot_write _ _ _ _))
      as [previous ->].
    by eexists.
Qed.

(** A page with a CR LF and a lone CR, saved for a url that parses. *)
Lemma saved_snapshot_is_diffed_witness :
  read_snapshot
    (save_content sample_netloc (mkFs ∅ ∅) "https://www.blog.test/"
       (String "a" (String (ascii_of_nat 13) (String (ascii_of_nat 10)
          (String "b" (String (ascii_of_nat 13) (String "c" EmptyString))))))
       "2024-01-02").2
    "blog.test" "2024-01-02" =
  Some (String "a" (String (ascii_of_nat 10)
          (String "b" (String (ascii_of_nat 10) (String "c" EmptyString))))).
Proof.
  destruct (saved_snapshot_is_diffed (λ _, empty_page) sample_netloc
              (mkFs ∅ ∅) "https://www.blog.test/" "blog.test"
              (String "a" (String (ascii_of_nat 13) (String (ascii_of_nat 10)
                 (String "b" (String (ascii_of_nat 13) (String "c" EmptyString))))))
              "2024-01-02")
    as [Hsaved _].
  destruct Hsaved as (_ & Hread & _); [vm_compute; reflexivity|].
  exact Hread.
Defined.

(** X2 ([generate_diff] with [_save_diff_result]): the archive is never
    changed; a returned result can be read back from the diff store under
    the blog's domain and [<date>.json], and every other stored diff is left
    as it was; without a result the storage is left as it was. *)
Theorem generate_diff_persists_result (lxml : string → node)
    (netloc : string → outcome string) (fs : filesystem)
    (url current_date_str : string) :
  archive (generate_diff lxml netloc fs url current_date_str).2 = archive fs ∧
  match get_domain netloc url, generate_diff lxml netloc fs url current_date_str with
  | Returned domain, (Returned (Some diff_result), fs') =>
      diffs fs' !! domain ≫=
        (λ directory, directory !! (current_date_str +:+ ".json")) =
        Some diff_result ∧
      ∀ other_domain file,
        (other_domain, file) ≠ (domain, current_date_str +:+ ".json") →
        diffs fs' !! other_domain ≫= (λ directory, directory !! file) =
        diffs fs !! other_domain ≫= (λ directory, directory !! file)
  | _, (_, fs') => fs' = fs
  end.
Proof.
  split; [apply generate_diff_archive|].
  unfold generate_diff. destruct (get_domain netloc url) as [|domain]; [done|].
  destruct (read_snapshot _ _ _) as [content|]; [|done].
  destruct (get_previous_content _ _ _) as [|previous]; [done|].
  unfold _save_diff_result. cbn [diffs]. split.
  - rewrite lookup_insert_eq. cbn [mbind option_bind]. apply lookup_insert_eq.
  - intros other_domain file Hne.
    destruct (decide (other_domain = domain)) as [->|Hdom].
    + rewrite lookup_insert_eq. cbn [mbind option_bind].
      rewrite lookup_insert_ne by congruence.
      by destruct (diffs fs !! domain).
    + by rewrite lookup_insert_ne.
Qed.

(** ** The previous snapshot *)

Lemma flip_le_total : Total (flip String.le).
Proof. intros x y. unfold flip. destruct (total String.le x y); auto. Qed.

Lemma sort_reverse_Permutation files : sort_reverse files ≡ₚ files.
Proof. apply merge_sort_Permutation. Qed.

Lemma sort_reverse_sorted files : StronglySorted (flip String.le) (sort_reverse files).
Proof.
  apply (@StronglySorted_merge_sort _ (flip String.le) _ _ flip_le_total).
Qed.

(** The [.html] file names of a directory, as [get_previous_content] lists
    them. *)
Lemma html_files_elem_of (directory : gmap string string) file :
  file ∈ filter (λ f, endswith ".html" f = true) (map_to_list directory).*1 ↔
  endswith ".html" file = true ∧ is_Some (directory !! file).
Proof.
  rewrite list_elem_of_filter, list_elem_of_fmap. split.
  - intros [Hend ([f c] & -> & Hin%elem_of_map_to_list)]. split; [done|by exists c].
  - intros [Hend [c Hc]]. split; [done|]. exists (file, c). split; [done|].
    by apply elem_of_map_to_list.
Qed.

Lemma html_files_NoDup (directory : gmap string string) :
  NoDup (filter (λ f, endswith ".html" f = true) (map_to_list directory).*1).
Proof. apply NoDup_filter, NoDup_fst_map_to_list. Qed.

(** The file [get_previous_content] picks from a sorted listing. *)
Lemma previous_file_elem_of (files : list string) :
  files ≠ [] →
  (if 1 <? length files then files !!! 1 else files !!! 0) ∈ files.
Proof.
  destruct files as [|f0 [|f1 files]]; [done|intros _; left|intros _].
  right. left.
Qed.

(** X3 ([get_previous_content]): what is returned is the content, as a
    text-mode read gives it, of a [.html] file that exists in the blog's
    archive directory, with that file's name stripped of [.html] as date;
    nothing is returned exactly when the directory is missing or holds no
    [.html] file; and it raises exactly when [get_domain] does. *)
Theorem previous_content_is_archived (netloc : string → outcome string)
    (fs : filesystem) (url : string) :
  match get_previous_content netloc fs url with
  | Returned (Some (content, date_str)) =>
      ∃ domain directory file stored,
        get_domain netloc url = Returned domain ∧
        archive fs !! domain = Some directory ∧
        endswith ".html" file = true ∧
        directory !! file = Some stored ∧
        content = universal_newlines stored ∧
        date_str = remove_all ".html" 0 file
  | Returned None =>
      ∃ domain,
        get_domain netloc url = Returned domain ∧
        ∀ directory file,
          archive fs !! domain = Some directory →
          is_Some (directory !! file) → endswith ".html" file = false
  | Raised => get_domain netloc url = Raised
  end.
Proof.
  unfold get_previous_content.
  destruct (get_domain netloc url) as [|domain]; [done|].
  destruct (archive fs !! domain) as [directory|] eqn:Harchive.
  2: { exists domain. split; [done|]. intros directory file Hdir.
       by rewrite Harchive in Hdir. }
  destruct (filter _ _) as [|f files] eqn:Hfiles.
  - exists domain. split; [done|]. intros ? file Hdir Hfile.
    rewrite Harchive in Hdir. injection Hdir as <-.
    destruct (endswith ".html" file) eqn:Hend; [|done].
    assert (file ∈ filter (λ f, endswith ".html" f = true)
                     (map_to_list directory).*1) as Hin
      by by apply html_files_elem_of.
    rewrite Hfiles in Hin. by apply elem_of_nil in Hin.
  - rewrite <- Hfiles.
    set (sorted := sort_reverse _).
    assert (sorted ≠ []) as Hne.
    { intros Hnil. pose proof (sort_reverse_Permutation
        (filter (λ f, endswith ".html" f = true) (map_to_list directory).*1))
        as Hperm.
      fold sorted in Hperm. rewrite Hnil, Hfiles in Hperm.
      by apply Permutation_nil_cons in Hperm. }
    pose proof (previous_file_elem_of sorted Hne) as Hin.
    assert (∀ x, x ∈ sorted →
                 x ∈ filter (λ f, endswith ".html" f = true)
                       (map_to_list directory).*1) as Hsub.
    { intros x Hx. unfold sorted in Hx.
      by rewrite sort_reverse_Permutation in Hx. }
    apply Hsub, html_files_elem_of in Hin as [Hend [c Hc]].
    eexists domain, directory, _, c. split_and!; [done|done|exact Hend|done| |done].
    by rewrite (lookup_total_correct _ _ _ Hc).
Qed.

(** A listing sorted in reverse starts with its greatest name and goes on
    with the greatest of the others. *)
Lemma sort_reverse_top_two (files : list string) (newest second : string) :
  NoDup files → newest ∈ files → second ∈ files → newest ≠ second →
  (∀ f, f ∈ files → String.le f newest) →
  (∀ f, f ∈ files → f ≠ newest → String.le f second) →
  ∃ rest, sort_reverse files = newest :: second :: rest.
Proof.
  intros Hnodup Hnewest Hsecond Hne Hmax Hmax2.
  pose proof (sort_reverse_Permutation files) as Hperm.
  pose proof (sort_reverse_sorted files) as Hsorted.
  destruct (sort_reverse files) as [|x [|y rest]].
  - rewrite <- Hperm in Hnewest. by apply elem_of_nil in Hnewest.
  - rewrite <- Hperm in Hnewest, Hsecond.
    apply list_elem_of_singleton in Hnewest, Hsecond. congruence.
  - rewrite <- Hperm in Hnodup, Hnewest, Hsecond.
    assert (∀ f, f ∈ x :: y :: rest → f ∈ files) as Hin
      by (intros f Hf; by rewrite <- Hperm).
    apply StronglySorted_inv in Hsorted as [Hsorted Hx].
    apply StronglySorted_inv in Hsorted as [_ Hy].
    rewrite Forall_forall in Hx, Hy. unfold flip in Hx, Hy.
    apply NoDup_cons in Hnodup as [Hxy _].
    assert (x = newest) as ->.
    { apply (anti_symm String.le); [apply Hmax, Hin; left|].
      apply elem_of_cons in Hnewest as [->|Hnewest]; [done|by apply Hx]. }
    assert (y = second) as ->; [|by exists rest].
    apply (anti_symm String.le).
    + apply Hmax2; [apply Hin; right; left|]. intros ->. apply Hxy. left.
    + apply elem_of_cons in Hsecond as [->|Hsecond]; [done|].
      apply elem_of_cons in Hsecond as [->|Hsecond]; [done|by apply Hy].
Qed.

Lemma second_newest_is_picked (netloc : string → outcome string)
    (fs : filesystem) (url domain : string) (directory : gmap string string)
    (newest second : string) :
  get_domain netloc url = Returned domain →
  archive fs !! domain = Some directory →
  is_Some (directory !! newest) → endswith ".html" newest = true →
  is_Some (directory !! second) → endswith ".html" second = true →
  newest ≠ second →
  (∀ f, is_Some (directory !! f) → endswith ".html" f = true →
        String.le f newest) →
  (∀ f, is_Some (directory !! f) → endswith ".html" f = true → f ≠ newest →
        String.le f second) →
  get_previous_content netloc fs url =
    Returned (Some (universal_newlines (directory !!! second),
                    remove_all ".html" 0 second)).
Proof.
  intros Hdomain Hdir Hnewest Hnewest_html Hsecond Hsecond_html Hne Hmax Hmax2.
  unfold get_previous_content. rewrite Hdomain, Hdir.
  destruct (sort_reverse_top_two
              (filter (λ f, endswith ".html" f = true) (map_to_list directory).*1)
              newest second) as [rest Hsorted].
  - apply html_files_NoDup.
  - by apply html_files_elem_of.
  - by apply html_files_elem_of.
  - done.
  - intros f [? ?]%html_files_elem_of. by apply Hmax.
  - intros f [? ?]%html_files_elem_of ?. by apply Hmax2.
  - destruct (filter _ _) as [|f files] eqn:Hfiles.
    + pose proof (sort_reverse_Permutation []) as Hperm.
      rewrite Hsorted in Hperm. by apply Permutation_nil_r in Hperm.
    + by rewrite Hsorted.
Qed.

(** X4 ([get_previous_content] with two or more snapshots): the snapshot
    returned is the second-newest [.html] file of the directory by name,
    whatever date is being processed. *)
Theorem previous_is_second_newest (netloc : string → outcome string)
    (fs : filesystem) (url domain : string) (directory : gmap string string)
    (newest second : string) :
  get_domain netloc url = Returned domain →
  archive fs !! domain = Some directory →
  is_Some (directory !! newest) → endswith ".html" newest = true →
  is_Some (directory !! second) → endswith ".html" second = true →
  newest ≠ second →
  (∀ f, is_Some (directory !! f) → endswith ".html" f = true →
        String.le f newest) →
  (∀ f, is_Some (directory !! f) → endswith ".html" f = true → f ≠ newest →
        String.le f second) →
  get_previous_content netloc fs url =
    Returned (Some (universal_newlines (directory !!! second),
                    remove_all ".html" 0 second)).
Proof. apply second_newest_is_picked. Qed.

Lemma two_snapshots_lookup (c1 c2 f1 f2 f : string) :
  is_Some ((<[f2 := c2]> {[f1 := c1]} : gmap string string) !! f) →
  f = f2 ∨ f = f1.
Proof.
  intros [c Hc]. apply lookup_insert_Some in Hc as [[-> _]|[_ Hc]]; [by left|].
  apply lookup_singleton_Some in Hc as [-> _]. by right.
Qed.

Lemma previous_is_second_newest_witness :
  get_previous_content sample_netloc
    (save_content sample_netloc
       (save_content sample_netloc (mkFs ∅ ∅) "https://www.blog.test/"
          "<old>" "2024-01-01").2
       "https://www.blog.test/" "<new>" "2024-01-02").2
    "https://www.blog.test/" = Returned (Some ("<old>", "2024-01-01")).
Proof.
  rewrite (previous_is_second_newest sample_netloc _ "https://www.blog.test/"
             "blog.test"
             (<[ "2024-01-02.html" := "<new>" ]> {[ "2024-01-01.html" := "<old>" ]})
             "2024-01-02.html" "2024-01-01.html").
  - vm_compute. reflexivity.
  - vm_compute. reflexivity.
  - vm_compute. reflexivity.
  - by eexists.
  - reflexivity.
  - by eexists.
  - reflexivity.
  - done.
  - intros f [->| ->]%two_snapshots_lookup _; by vm_compute.
  - intros f [->| ->]%two_snapshots_lookup _ ?; [done|by vm_compute].
Defined.

(** A date label without a dot is recovered from its file name. *)
Lemma remove_html_suffix (d : string) :
  Forall (λ c, c ≠ "."%char) (String.list_ascii_of_string d) →
  remove_all ".html" 0 (d +:+ ".html") = d.
Proof.
  induction d as [|c d IH]; [done|].
  cbn [String.list_ascii_of_string]. intros [Hc Hd]%Forall_cons.
  change (String c d +:+ ".html") with (String c (d +:+ ".html")).
  cbn [remove_all String.prefix].
  destruct (ascii_dec "." c) as [<-|_]; [done|]. f_equal. by apply IH.
Qed.

(** X5 ([generate_diff] on a second run): when the blog's archive directory
    holds exactly an older snapshot and the current one, the current page is
    compared with the older one, each as a text-mode read gives it, and the
    older label is reported as previous date. *)
Theorem second_run_compares_with_first (lxml : string → node)
    (netloc : string → outcome string) (fs : filesystem)
    (url domain older_content older_date content current_date_str : string) :
  get_domain netloc url = Returned domain →
  archive fs !! domain =
    Some (<[current_date_str +:+ ".html" := content]>
            {[older_date +:+ ".html" := older_content]}) →
  older_date ≠ current_date_str →
  String.le (older_date +:+ ".html") (current_date_str +:+ ".html") →
  Forall (λ c, c ≠ "."%char) (String.list_ascii_of_string older_date) →
  (generate_diff lxml netloc fs url current_date_str).1 =
    Returned
      (Some (_compare_versions lxml (universal_newlines older_content)
               (universal_newlines content) url domain older_date
               current_date_str)).
Proof.
  intros Hdomain Hdir Hne Hle Hdots.
  assert (older_date +:+ ".html" ≠ current_date_str +:+ ".html") as Hfiles
    by (by intros ?%append_inj_r).
  unfold generate_diff, read_snapshot. rewrite Hdomain, Hdir.
  cbn [mbind option_bind]. rewrite lookup_insert_eq.
  cbn [fmap option_fmap option_map].
  rewrite (second_newest_is_picked netloc fs url domain _
             (current_date_str +:+ ".html") (older_date +:+ ".html") Hdomain Hdir).
  - cbn [fst]. rewrite lookup_total_insert_ne by done.
    by rewrite lookup_total_singleton_eq, remove_html_suffix.
  - rewrite lookup_insert_eq. by eexists.
  - apply endswith_append.
  - rewrite lookup_insert_ne by done. rewrite lookup_singleton_eq. by eexists.
  - apply endswith_append.
  - done.
  - intros f [->| ->]%two_snapshots_lookup _; done.
  - intros f [->| ->]%two_snapshots_lookup _ ?; done.
Qed.

Lemma second_run_compares_with_first_witness :
  (generate_diff (λ _, three_posts_page) sample_netloc
     (save_content sample_netloc
        (save_content sample_netloc (mkFs ∅ ∅) "https://www.blog.test/"
           "<old>" "2024-01-01").2
        "https://www.blog.test/" "<new>" "2024-01-02").2
     "https://www.blog.test/" "2024-01-02").1 =
  Returned
    (Some (_compare_versions (λ _, three_posts_page) "<old>" "<new>"
             "https://www.blog.test/" "blog.test" "2024-01-01" "2024-01-02")).
Proof.
  apply (second_run_compares_with_first (λ _, three_posts_page)
           sample_netloc _ "https://www.blog.test/" "blog.test" "<old>"
           "2024-01-01" "<new>" "2024-01-02").
  - vm_compute. reflexivity.
  - vm_compute. reflexivity.
  - done.
  - by vm_compute.
  - vm_compute. repeat constructor; done.
Defined.

(** ** More on the comparator *)

(** The three output lists as selections from the two maps. *)
Lemma compare_articles_closed previous current :
  compare_articles previous current =
  (omap (λ '(key, curr_art),
           match dict_get key (article_map previous) with
           | None => Some curr_art
           | Some _ => None
           end) (article_map current),
   omap (λ '(key, curr_art),
           match dict_get key (article_map previous) with
           | None => None
           | Some prev_art =>
               if decide (content curr_art ≠ content prev_art)
               then Some (diff_obj prev_art curr_art) else None
           end) (article_map current),
   omap (λ '(key, prev_art),
           match dict_get key (article_map current) with
           | None => Some prev_art
           | Some _ => None
           end) (article_map previous)).
Proof.
  unfold compare_articles.
  by rewrite classify_current_fold, classify_previous_fold.
Qed.

Lemma new_of_key previous current key :
  filter (λ a, identity_key a = key) (compare_articles previous current).1.1 =
  match dict_get key (article_map current), dict_get key (article_map previous) with
  | Some curr_art, None => [curr_art]
  | _, _ => []
  end.
Proof.
  rewrite compare_articles_closed. cbn [fst snd].
  rewrite (filter_key_omap identity_key); [|apply article_map_NoDup|].
  - destruct (dict_get key (article_map current)); [|done].
    by destruct (dict_get key (article_map previous)).
  - intros [k a] w Hin Hw. cbn [fst].
    destruct (dict_get k (article_map previous)); simplify_eq.
    by apply (article_map_own_key current).
Qed.

Lemma changed_of_key previous current key :
  filter (λ c, changed_key c = key) (compare_articles previous current).1.2 =
  match dict_get key (article_map current), dict_get key (article_map previous) with
  | Some curr_art, Some prev_art =>
      if decide (content curr_art ≠ content prev_art)
      then [diff_obj prev_art curr_art] else []
  | _, _ => []
  end.
Proof.
  rewrite compare_articles_closed. cbn [fst snd].
  rewrite (filter_key_omap changed_key); [|apply article_map_NoDup|].
  - destruct (dict_get key (article_map current)); [|done].
    destruct (dict_get key (article_map previous)); [|done]. by case_decide.
  - intros [k a] w Hin Hw. cbn [fst].
    destruct (dict_get k (article_map previous)); simplify_eq.
    case_decide; simplify_eq. rewrite changed_key_diff_obj.
    by apply (article_map_own_key current).
Qed.

Lemma removed_of_key previous current key :
  filter (λ a, identity_key a = key) (compare_articles previous current).2 =
  match dict_get key (article_map previous), dict_get key (article_map current) with
  | Some prev_art, None => [prev_art]
  | _, _ => []
  end.
Proof.
  rewrite compare_articles_closed. cbn [fst snd].
  rewrite (filter_key_omap identity_key); [|apply article_map_NoDup|].
  - destruct (dict_get key (article_map previous)); [|done].
    by destruct (dict_get key (article_map current)).
  - intros [k a] w Hin Hw. cbn [fst].
    destruct (dict_get k (article_map current)); simplify_eq.
    by apply (article_map_own_key previous).
Qed.

(** A list whose selection by every key is empty is empty. *)
Lemma nil_by_keys {A : Type} (key_of : A → string) (l : list A) :
  (∀ k, filter (λ x, key_of x = k) l = []) → l = [].
Proof.
  destruct l as [|x l]; [done|]. intros Hall.
  specialize (Hall (key_of x)). by rewrite filter_cons_True in Hall.
Qed.

(** X6 ([_compare_versions] on an unchanged page): comparing a list of
    articles with itself gives three empty lists, so two snapshots with the
    same markup give a result without changes. *)
Theorem unchanged_page_reports_nothing (lxml : string → node)
    (articles : list Article)
    (markup url domain previous_date current_date_str : string) :
  compare_articles articles articles = ([], [], []) ∧
  _compare_versions lxml markup markup url domain previous_date current_date_str =
    mkDiff url domain current_date_str (Some previous_date) false [] [] [].
Proof.
  split; [apply compare_articles_self|].
  unfold _compare_versions. by rewrite compare_articles_self.
Qed.

(** X7 ([_compare_versions], the two loops): exchanging the two snapshots
    exchanges new and removed articles, and a key is reported as changed in
    one direction exactly when it is in the other, with the two contents
    exchanged. *)
Theorem comparison_swaps (previous current : list Article) (key : string) :
  (compare_articles previous current).1.1 = (compare_articles current previous).2 ∧
  (compare_articles previous current).2 = (compare_articles current previous).1.1 ∧
  map (λ c, (previous_content c, current_content c))
      (filter (λ c, changed_key c = key) (compare_articles previous current).1.2) =
  map (λ c, (current_content c, previous_content c))
      (filter (λ c, changed_key c = key) (compare_articles current previous).1.2).
Proof.
  split_and!; [by rewrite !compare_articles_closed..|].
  rewrite !changed_of_key.
  destruct (dict_get key (article_map current)) as [a|],
           (dict_get key (article_map previous)) as [b|]; try done.
  destruct (decide (content a ≠ content b)), (decide (content b ≠ content a));
    done || congruence.
Qed.

(** X8 (when [_compare_versions] reports no change): the three lists are
    all empty exactly when the two key-to-article maps have the same keys
    and, for every key, the same [content]; a difference in title or date
    alone is never reported. *)
Theorem no_change_iff_same_contents (previous current : list Article) :
  compare_articles previous current = ([], [], []) ↔
  ∀ key, content <$> dict_get key (article_map previous) =
         content <$> dict_get key (article_map current).
Proof.
  split.
  - intros Hnil key.
    pose proof (new_of_key previous current key) as Hnew.
    pose proof (changed_of_key previous current key) as Hchanged.
    pose proof (removed_of_key previous current key) as Hremoved.
    rewrite Hnil in Hnew, Hchanged, Hremoved. cbn [fst snd] in *.
    rewrite filter_nil in Hnew. rewrite filter_nil in Hchanged.
    rewrite filter_nil in Hremoved.
    destruct (dict_get key (article_map current)) as [a|],
             (dict_get key (article_map previous)) as [b|]; try done.
    destruct (decide (content a ≠ content b)) as [|Heq]; [done|].
    apply dec_stable in Heq. cbn. by rewrite Heq.
  - intros Hsame.
    assert (∀ key,
      match dict_get key (article_map current), dict_get key (article_map previous) with
      | Some a, Some b => content a = content b
      | None, None => True
      | _, _ => False
      end) as Hcases.
    { intros key. specialize (Hsame key).
      destruct (dict_get key (article_map current)),
               (dict_get key (article_map previous)); by simplify_eq/=. }
    destruct (compare_articles previous current) as [[added changed] removed] eqn:Hcmp.
    assert (added = []) as ->.
    { apply (nil_by_keys identity_key). intros key.
      pose proof (new_of_key previous current key) as Hnew. rewrite Hcmp in Hnew.
      cbn [fst snd] in Hnew. rewrite Hnew. specialize (Hcases key).
      by destruct (dict_get key (article_map current)),
                  (dict_get key (article_map previous)). }
    assert (changed = []) as ->.
    { apply (nil_by_keys changed_key). intros key.
      pose proof (changed_of_key previous current key) as Hch. rewrite Hcmp in Hch.
      cbn [fst snd] in Hch. rewrite Hch. specialize (Hcases key).
      destruct (dict_get key (article_map current)),
               (dict_get key (article_map previous)); try done.
      by destruct (decide _). }
    assert (removed = []) as ->; [|done].
    apply (nil_by_keys identity_key). intros key.
    pose proof (removed_of_key previous current key) as Hrem. rewrite Hcmp in Hrem.
    cbn [fst snd] in Hrem. rewrite Hrem. specialize (Hcases key).
    by destruct (dict_get key (article_map current)),
                (dict_get key (article_map previous)).
Qed.

Lemma dict_set_fresh {V : Type} (k : string) (v : V) (d : list (string * V)) :
  k ∉ d.*1 → dict_set k v d = d ++ [(k, v)].
Proof.
  induction d as [|[k' w] r IH]; [done|]. cbn [fmap list_fmap fst dict_set].
  intros [Hne Hr]%not_elem_of_cons.
  rewrite bool_decide_false by done. cbn [app]. f_equal. by apply IH.
Qed.

(** With distinct keys the map lists the articles as they come. *)
Lemma article_map_distinct_from d l :
  NoDup (identity_key <$> l) →
  (∀ a, a ∈ l → identity_key a ∉ d.*1) →
  fold_left (λ d art, dict_set (identity_key art) art d) l d =
  d ++ ((λ a, (identity_key a, a)) <$> l).
Proof.
  revert d. induction l as [|a l IH]; intros d Hnodup Hfresh.
  - by rewrite app_nil_r.
  - rewrite fmap_cons in Hnodup. apply NoDup_cons in Hnodup as [Ha Hl].
    cbn [fold_left]. rewrite dict_set_fresh by (apply Hfresh; left).
    rewrite IH; [by rewrite <- app_assoc|done|].
    intros b Hb. rewrite fmap_app. cbn [fmap list_fmap fst].
    rewrite elem_of_app, list_elem_of_singleton.
    intros [Hin|Heq].
    + by apply (Hfresh b); [right|].
    + apply Ha. rewrite <- Heq. by apply list_elem_of_fmap_2.
Qed.

Lemma omap_all_Some {A B : Type} (g : A → option B) (h : A → B) (l : list A) :
  (∀ x, x ∈ l → g x = Some (h x)) → omap g l = h <$> l.
Proof.
  induction l as [|x l IH]; [done|]. intros Hg. cbn [omap list_omap].
  rewrite (Hg x) by left. rewrite fmap_cons. f_equal.
  apply IH. intros y ?. apply Hg. by right.
Qed.

(** X9 ([_compare_versions] against a page without articles): with no
    previous article every entry of the current map is new, with no current
    article every entry of the previous map is removed, and nothing is
    changed; when the identity keys of the list are distinct these entries
    are the articles themselves, in their order. *)
Theorem comparison_with_empty_side (articles : list Article) :
  compare_articles [] articles = ((article_map articles).*2, [], []) ∧
  compare_articles articles [] = ([], [], (article_map articles).*2) ∧
  (NoDup (identity_key <$> articles) → (article_map articles).*2 = articles).
Proof.
  split_and!.
  - rewrite compare_articles_closed. repeat apply (f_equal2 pair); [| |done].
    + apply (omap_all_Some _ snd). by intros [k a] _.
    + apply omap_all_None. by intros [k a] _.
  - rewrite compare_articles_closed. repeat apply (f_equal2 pair); [done..|].
    apply (omap_all_Some _ snd). by intros [k a] _.
  - intros Hnodup. unfold article_map.
    rewrite article_map_distinct_from; [|done|by intros ? _ ?%elem_of_nil].
    cbn [app]. rewrite <- list_fmap_compose. exact (list_fmap_id articles).
Qed.

Lemma comparison_with_empty_side_witness :
  compare_articles [] [draft; other] = ([draft; other], [], []).
Proof.
  destruct (comparison_with_empty_side [draft; other]) as (Hnew & _ & Hvalues).
  rewrite Hnew, Hvalues; [reflexivity|].
  apply (bool_decide_unpack _). vm_compute. exact I.
Defined.

Lemma dict_get_article l k a :
  dict_get k (article_map l) = Some a → a ∈ l ∧ identity_key a = k.
Proof.
  rewrite article_map_get. intros Hlast%last_Some_elem_of.
  by apply list_elem_of_filter in Hlast as [? ?].
Qed.

Lemma article_map_elem_of l k a : (k, a) ∈ article_map l → a ∈ l.
Proof.
  intros Hin. apply (dict_get_article l k).
  apply dict_get_NoDup; [apply article_map_NoDup|done].
Qed.

Lemma length_dict_set {V : Type} (k : string) (v : V) (d : list (string * V)) :
  length (dict_set k v d) ≤ S (length d).
Proof.
  induction d as [|[k' w] r IH]; [done|]. cbn [dict_set].
  case_bool_decide; cbn [length]; lia.
Qed.

Lemma length_article_map l : length (article_map l) ≤ length l.
Proof.
  unfold article_map.
  assert (∀ d, length (fold_left (λ d art, dict_set (identity_key art) art d) l d)
               ≤ length d + length l) as Hlen; [|by apply (Hlen [])].
  induction l as [|a l IH]; intros d; cbn [fold_left length]; [lia|].
  etrans; [apply IH|]. pose proof (length_dict_set (identity_key a) a d). lia.
Qed.

Lemma length_omap_le {A B : Type} (g : A → option B) (l : list A) :
  length (omap g l) ≤ length l.
Proof.
  induction l as [|x l IH]; [done|]. cbn [omap list_omap].
  destruct (g x); cbn [length]; lia.
Qed.

Lemma length_omap_exclusive {A B C : Type} (g : A → option B) (h : A → option C)
    (l : list A) :
  (∀ x, g x = None ∨ h x = None) →
  length (omap g l) + length (omap h l) ≤ length l.
Proof.
  intros Hex. induction l as [|x l IH]; [done|]. cbn [omap list_omap].
  destruct (Hex x) as [-> | ->]; [destruct (h x)|destruct (g x)];
    cbn [length]; lia.
Qed.

(** X10 ([_compare_versions], where the outputs come from): every new
    article is an article of the current list, every removed article one of
    the previous list, every changed entry pairs a previous and a current
    article of one identity key whose contents differ; new and changed
    entries together are at most as many as the current articles, removed
    ones at most as many as the previous articles. *)
Theorem comparison_outputs_come_from_inputs (previous current : list Article) :
  Forall (λ a, a ∈ current) (compare_articles previous current).1.1 ∧
  Forall (λ a, a ∈ previous) (compare_articles previous current).2 ∧
  Forall (λ c, ∃ prev_art curr_art,
                 prev_art ∈ previous ∧ curr_art ∈ current ∧
                 identity_key prev_art = identity_key curr_art ∧
                 content curr_art ≠ content prev_art ∧
                 c = mkChanged (title curr_art) (url curr_art)
                       (content prev_art) (content curr_art))
         (compare_articles previous current).1.2 ∧
  length (compare_articles previous current).1.1 +
    length (compare_articles previous current).1.2 ≤ length current ∧
  length (compare_articles previous current).2 ≤ length previous.
Proof.
  rewrite compare_articles_closed. cbn [fst snd]. split_and!.
  - apply Forall_forall. intros a ([k a'] & Hin & Ha)%list_elem_of_omap.
    destruct (dict_get k (article_map previous)); simplify_eq.
    by apply (article_map_elem_of current k).
  - apply Forall_forall. intros a ([k a'] & Hin & Ha)%list_elem_of_omap.
    destruct (dict_get k (article_map current)); simplify_eq.
    by apply (article_map_elem_of previous k).
  - apply Forall_forall. intros c ([k a] & Hin & Hc)%list_elem_of_omap.
    destruct (dict_get k (article_map previous)) as [b|] eqn:Hb; [|done].
    case_decide; simplify_eq.
    apply dict_get_article in Hb as [Hb Hkb].
    exists b, a. split_and!; [done|by apply (article_map_elem_of current k)| |done..].
    rewrite Hkb. symmetry. by apply (article_map_own_key current).
  - etrans; [|apply length_article_map]. apply length_omap_exclusive.
    intros [k a]. destruct (dict_get k (article_map previous)); auto.
  - etrans; [|apply length_article_map]. apply length_omap_le.
Qed.

(** ** More on the container extraction *)

Lemma url_set_date_from d a : url (set_date_from d a) = url a.
Proof. unfold set_date_from. by destruct (get_attr _ _). Qed.

Lemma date_set_url_from link a : date (set_url_from link a) = date a.
Proof. unfold set_url_from. by destruct (get_attr _ _). Qed.

Lemma url_set_url_from link a :
  url (set_url_from link a) =
  match get_attr "href" (el link) with Some href => Some href | None => url a end.
Proof. unfold set_url_from. by destruct (get_attr _ _). Qed.

Lemma date_set_date_from d a :
  date (set_date_from d a) =
  Some (default (strip (get_text (el d))) (get_attr "datetime" (el d))).
Proof. unfold set_date_from. by destruct (get_attr _ _). Qed.

(** The steps after the title and link steps leave title and url alone, and
    the steps around the date step leave the date alone. *)
Ltac container_steps :=
  repeat match goal with
    | |- context [match find_next ?s ?x ?y with _ => _ end] =>
        destruct (find_next s x y)
    | |- context [match find "p" ?y with _ => _ end] => destruct (find "p" y)
    | |- context [title (set_date_from ?x ?y)] => rewrite (title_set_date_from x y)
    | |- context [title (set_url_from ?x ?y)] => rewrite (title_set_url_from x y)
    | |- context [url (set_date_from ?x ?y)] => rewrite (url_set_date_from x y)
    | |- context [date (set_url_from ?x ?y)] => rewrite (date_set_url_from x y)
    | |- context [content (set_date_from ?x ?y)] =>
        rewrite (content_set_date_from x y)
    | |- context [content (set_url_from ?x ?y)] =>
        rewrite (content_set_url_from x y)
    | _ => progress cbn [title url date content set_title set_content
                          empty_article fmap option_fmap option_map
                          mbind option_bind]
    end.

Lemma container_fields (soup : node) (element : element) :
  title (_extract_article_data soup element) =
    match select_one title_selector element with
    | Some t => Some (strip (get_text (el t)))
    | None =>
        (λ link, strip (get_text (el link))) <$> find_with_string "a" element
    end ∧
  url (_extract_article_data soup element) =
    match select_one title_selector element with
    | Some t => find "a" t ≫= λ link, get_attr "href" (el link)
    | None => find_with_string "a" element ≫= λ link, get_attr "href" (el link)
    end ∧
  date (_extract_article_data soup element) =
    (λ d, default (strip (get_text (el d))) (get_attr "datetime" (el d)))
      <$> select_one date_selector element.
Proof.
  unfold _extract_article_data.
  destruct (select_one title_selector element) as [t|];
    destruct (select_one content_selector element) as [c|];
    destruct (select_one date_selector element) as [d|];
    [destruct (find "a" t) as [link|]..
    |destruct (find_with_string "a" element) as [link|]
    |destruct (find_with_string "a" element) as [link|]
    |destruct (find_with_string "a" element) as [link|]
    |destruct (find_with_string "a" element) as [link|]];
    container_steps;
    rewrite ?date_set_date_from, ?url_set_url_from;
    container_steps;
    try (destruct (get_attr "href" (el link)));
    by container_steps.
Qed.

(** X11 ([_extract_article_data], title, url and date): the title is the
    trimmed text of the title element, else of the first link with a string;
    the url is the [href] of the first link inside the title element when
    there is a title element (a link elsewhere is then not used), else of
    that first link with a string; the date is the [datetime] attribute of
    the date element when it has one, else its trimmed text.  None of the
    three depends on the page around the container. *)
Theorem container_title_url_date (soup : node) (element : element) :
  title (_extract_article_data soup element) =
    match select_one title_selector element with
    | Some t => Some (strip (get_text (el t)))
    | None =>
        (λ link, strip (get_text (el link))) <$> find_with_string "a" element
    end ∧
  url (_extract_article_data soup element) =
    match select_one title_selector element with
    | Some t => find "a" t ≫= λ link, get_attr "href" (el link)
    | None => find_with_string "a" element ≫= λ link, get_attr "href" (el link)
    end ∧
  date (_extract_article_data soup element) =
    (λ d, default (strip (get_text (el d))) (get_attr "datetime" (el d)))
      <$> select_one date_selector element.
Proof. apply container_fields. Qed.


(** X12 ([_extract_article_data] and [_extract_articles], identity keys): a
    container article never has a url without a title; every article the
    extractor returns has a non-empty title, its identity key is its url
    when it has one and its title otherwise, so the key is empty only for an
    article whose link has an empty [href]. *)
Theorem extracted_identity_keys (lxml : string → node) (markup : string)
    (element : element) :
  (url (_extract_article_data (lxml markup) element) = None ∨
   is_Some (title (_extract_article_data (lxml markup) element))) ∧
  Forall (λ a, ∃ t, title a = Some t ∧ t ≠ EmptyString ∧
                    identity_key a = default t (url a) ∧
                    (identity_key a = EmptyString → url a = Some EmptyString))
         (_extract_articles lxml markup).
Proof.
  split.
  - destruct (container_fields (lxml markup) element) as (-> & -> & _).
    destruct (select_one title_selector element); [right; by eexists|].
    destruct (find_with_string "a" element); [right; by eexists|by left].
  - assert (∀ a, has_title a = true →
                 ∃ t, title a = Some t ∧ t ≠ EmptyString ∧
                      identity_key a = default t (url a) ∧
                      (identity_key a = EmptyString → url a = Some EmptyString))
      as Hkey.
    { intros a (t & Ht & Hne)%has_title_spec. exists t. unfold identity_key.
      rewrite Ht. destruct (url a) as [u|]; cbn; split_and!; try done.
      by intros ->. }
    unfold _extract_articles. rewrite extract_from_soup_cases.
    destruct (try_selectors_first (lxml markup) article_selectors)
      as [(_ & sel & _ & _ & _ & Hs & ->)|[_ ->]].
    + destruct (pattern_articles (lxml markup) sel) as [|x xs] eqn:Heq; [done|].
      rewrite <- Heq. apply Forall_forall.
      intros a [Ha _]%list_elem_of_filter. by apply Hkey.
    + apply Forall_forall. intros a [Ha _]%list_elem_of_filter. by apply Hkey.
Qed.

(** ** File names *)

Lemma length_replace_invalid s :
  String.length (replace_invalid s) = String.length s.
Proof. induction s as [|c s IH]; [done|]. cbn. by rewrite IH. Qed.

Lemma length_string_take n s :
  String.length (string_take n s) = n `min` String.length s.
Proof.
  revert s. induction n as [|n IH]; intros [|c s]; try done.
  cbn. by rewrite IH.
Qed.

Lemma replace_invalid_valid s :
  Forall (λ c, c ∉ invalid_filename_chars)
         (String.list_ascii_of_string (replace_invalid s)).
Proof.
  induction s as [|c s IH]; [constructor|]. cbn. constructor; [|done].
  case_bool_decide; [|done]. by apply (bool_decide_unpack _).
Qed.

Lemma string_take_valid n s :
  Forall (λ c, c ∉ invalid_filename_chars) (String.list_ascii_of_string s) →
  Forall (λ c, c ∉ invalid_filename_chars)
         (String.list_ascii_of_string (string_take n s)).
Proof.
  revert s. induction n as [|n IH]; intros [|c s]; try by constructor.
  cbn. intros [Hc Hs]%Forall_cons. constructor; auto.
Qed.

Lemma replace_invalid_id s :
  Forall (λ c, c ∉ invalid_filename_chars) (String.list_ascii_of_string s) →
  replace_invalid s = s.
Proof.
  induction s as [|c s IH]; [done|]. cbn. intros [Hc Hs]%Forall_cons.
  rewrite bool_decide_false by done. by rewrite IH.
Qed.

Lemma sanitize_filename_valid filename :
  Forall (λ c, c ∉ invalid_filename_chars)
         (String.list_ascii_of_string (sanitize_filename filename)).
Proof.
  unfold sanitize_filename. destruct (255 <? _).
  - apply string_take_valid, replace_invalid_valid.
  - apply replace_invalid_valid.
Qed.

Lemma sanitize_filename_length filename :
  String.length (sanitize_filename filename) = 255 `min` String.length filename.
Proof.
  unfold sanitize_filename. rewrite length_replace_invalid.
  destruct (255 <? String.length filename) eqn:Hlen.
  - by rewrite length_string_take, length_replace_invalid.
  - apply Nat.ltb_ge in Hlen. rewrite length_replace_invalid. lia.
Qed.

Lemma sanitize_filename_clean filename :
  Forall (λ c, c ∉ invalid_filename_chars) (String.list_ascii_of_string filename) →
  String.length filename ≤ 255 →
  sanitize_filename filename = filename.
Proof.
  intros Hvalid Hlen. unfold sanitize_filename.
  rewrite replace_invalid_id by done.
  destruct (255 <? String.length filename) eqn:Hlt; [|done].
  apply Nat.ltb_lt in Hlt. lia.
Qed.

(** X13 ([sanitize_filename]): the result has the length of the name, cut
    at 255; it holds none of the replaced characters; a name that is already
    free of them and no longer than 255 is returned as it is, so sanitizing
    twice is sanitizing once. *)
Theorem sanitize_filename_safe (filename : string) :
  String.length (sanitize_filename filename) = 255 `min` String.length filename ∧
  Forall (λ c, c ∉ invalid_filename_chars)
         (String.list_ascii_of_string (sanitize_filename filename)) ∧
  (Forall (λ c, c ∉ invalid_filename_chars)
          (String.list_ascii_of_string filename) →
   String.length filename ≤ 255 → sanitize_filename filename = filename) ∧
  sanitize_filename (sanitize_filename filename) = sanitize_filename filename.
Proof.
  split_and!.
  - apply sanitize_filename_length.
  - apply sanitize_filename_valid.
  - apply sanitize_filename_clean.
  - apply sanitize_filename_clean; [apply sanitize_filename_valid|].
    rewrite sanitize_filename_length. lia.
Qed.

Lemma sanitize_filename_safe_witness :
  sanitize_filename "2024-01-01.html" = "2024-01-01.html" ∧
  sanitize_filename "a/b:c?.md" = "a_b_c_.md".
Proof.
  split; [|reflexivity].
  destruct (sanitize_filename_safe "2024-01-01.html") as (_ & _ & Hclean & _).
  apply Hclean; [apply (bool_decide_unpack _); vm_compute; exact I|].
  cbn. lia.
Defined.

(** ** Grouping by category *)

Lemma dict_get_is_None {V : Type} (k : string) (d : list (string * V)) :
  dict_get k d = None → k ∉ d.*1.
Proof.
  induction d as [|[k' w] r IH]; [intros _; apply not_elem_of_nil|].
  cbn [dict_get fmap list_fmap fst]. case_bool_decide; [done|].
  intros Hr. apply not_elem_of_cons. split; [done|by apply IH].
Qed.

Lemma categorize_step_get categorized diff category :
  dict_get category (categorize_step categorized diff) =
  if decide (category_of diff = category)
  then Some (default [] (dict_get category categorized) ++ [diff])
  else dict_get category categorized.
Proof.
  unfold categorize_step. rewrite dict_get_set.
  destruct (decide (category_of diff = category)) as [<-|Hne].
  - destruct (dict_get (category_of diff) categorized) eqn:Hget.
    + by rewrite Hget.
    + by rewrite dict_get_set, decide_True.
  - destruct (dict_get (category_of diff) categorized); [done|].
    by rewrite dict_get_set, decide_False.
Qed.

Lemma categorize_step_NoDup categorized diff :
  NoDup categorized.*1 → NoDup (categorize_step categorized diff).*1.
Proof.
  intros Hd. unfold categorize_step. apply NoDup_dict_set.
  destruct (dict_get _ _); [done|by apply NoDup_dict_set].
Qed.

Lemma concat_values_dict_set (k : string) (g : list DiffEntry) (x : DiffEntry)
    (d : list (string * list DiffEntry)) :
  dict_get k d = Some g →
  concat (dict_set k (g ++ [x]) d).*2 ≡ₚ concat d.*2 ++ [x].
Proof.
  induction d as [|[k' w] r IH]; [done|]. cbn [dict_get dict_set].
  case_bool_decide.
  - intros [= ->]. cbn [fmap list_fmap snd concat].
    rewrite <- !app_assoc. f_equiv. apply Permutation_app_comm.
  - intros Hr. cbn [fmap list_fmap snd concat]. rewrite IH by done.
    by rewrite app_assoc.
Qed.

Lemma categorize_step_concat categorized diff :
  concat (categorize_step categorized diff).*2 ≡ₚ concat categorized.*2 ++ [diff].
Proof.
  unfold categorize_step.
  destruct (dict_get (category_of diff) categorized) as [g|] eqn:Hget.
  - rewrite Hget. by apply concat_values_dict_set.
  - rewrite dict_get_set, decide_True by done. cbn [default].
    rewrite (concat_values_dict_set _ []); [|by rewrite dict_get_set, decide_True].
    rewrite dict_set_fresh by by apply dict_get_is_None.
    rewrite fmap_app, concat_app. cbn. by rewrite !app_nil_r.
Qed.

Lemma categorize_get_from categorized diffs category :
  dict_get category (fold_left categorize_step diffs categorized) =
  match dict_get category categorized,
        filter (λ d, category_of d = category) diffs with
  | None, [] => None
  | g, group => Some (default [] g ++ group)
  end.
Proof.
  revert categorized. induction diffs as [|x diffs IH]; intros categorized.
  - cbn [fold_left]. rewrite filter_nil.
    destruct (dict_get category categorized); [|done]. cbn. by rewrite app_nil_r.
  - cbn [fold_left]. rewrite IH, categorize_step_get, filter_cons.
    destruct (decide (category_of x = category)) as [Hx|Hx].
    + destruct (dict_get category categorized); cbn; by rewrite <- ?app_assoc.
    + done.
Qed.

(** X14 ([_categorize_diffs]): the group of a category is the list of the
    diffs of that category in their order, a category without diff has no
    group, the categories are distinct, and the groups together hold every
    diff exactly once. *)
Theorem categorize_groups (diff_results : list DiffEntry) (category : string) :
  dict_get category (_categorize_diffs diff_results) =
    match filter (λ d, category_of d = category) diff_results with
    | [] => None
    | group => Some group
    end ∧
  NoDup (_categorize_diffs diff_results).*1 ∧
  concat (_categorize_diffs diff_results).*2 ≡ₚ diff_results.
Proof.
  unfold _categorize_diffs.
  split_and!.
  - rewrite categorize_get_from. cbn [dict_get default app].
    by destruct (filter _ _).
  - assert (∀ d, NoDup d.*1 →
                 NoDup (fold_left categorize_step diff_results d).*1) as Hnodup;
      [|apply Hnodup; constructor].
    induction diff_results as [|x l IH]; intros d Hd; [done|].
    cbn [fold_left]. by apply IH, categorize_step_NoDup.
  - assert (∀ d, concat (fold_left categorize_step diff_results d).*2
                 ≡ₚ concat d.*2 ++ diff_results) as Hperm; [|by apply (Hperm [])].
    induction diff_results as [|x l IH]; intros d; cbn [fold_left].
    + by rewrite app_nil_r.
    + rewrite IH, categorize_step_concat. by rewrite <- app_assoc.
Qed.

(** ** The prompt data *)

Lemma fold_left_append {A B : Type} (f : A → B) (l : list A) (acc : list B) :
  fold_left (λ acc x, acc ++ [f x]) l acc = acc ++ (f <$> l).
Proof.
  revert acc. induction l as [|x l IH]; intros acc; cbn [fold_left].
  - by rewrite app_nil_r.
  - rewrite IH, fmap_cons. by rewrite <- app_assoc.
Qed.

Lemma add_prompt_data_fold diffs blogs new_list changed_list :
  fold_left add_prompt_data diffs (blogs, new_list, changed_list) =
  (blogs ++ ((λ d, mkPromptBlog (blog_label d) (blog_link d)) <$> diffs),
   new_list ++
     (diffs ≫= λ d,
        (λ a, mkPromptArticle (default "Untitled" (title a)) (default "" (url a))
                (default "" (content a)) (default "" (date a)) (blog_label d))
          <$> new_articles (entry_result d)),
   changed_list ++
     (diffs ≫= λ d,
        (λ c, mkPromptChanged (changed_title c) (changed_url c) (blog_label d))
          <$> changed_articles (entry_result d))).
Proof.
  revert blogs new_list changed_list.
  induction diffs as [|d diffs IH]; intros blogs new_list changed_list.
  - cbn. by rewrite !app_nil_r.
  - cbn [fold_left add_prompt_data].
    rewrite (fold_left_append
               (λ a, mkPromptArticle (default "Untitled" (title a))
                       (default "" (url a)) (default "" (content a))
                       (default "" (date a)) (blog_label d))).
    rewrite (fold_left_append
               (λ c, mkPromptChanged (changed_title c) (changed_url c)
                       (blog_label d))).
    rewrite IH, fmap_cons, !bind_cons. by rewrite <- !app_assoc.
Qed.

(** X15 ([_prepare_prompt_data]): the prompt data names one blog per diff,
    in order, and its new and changed articles are those of the diffs, in
    order and each labelled with its blog's name (the domain when the diff
    has no blog name).  In an entry of the new list a missing title becomes
    [Untitled] and a missing url, content or date the empty string.  An
    entry of the changed list carries the title and the url of the diff
    object as they are: the diff object always has both keys, so the
    defaults of [get] never apply there, and a changed article without url
    keeps [None] as url. *)
Theorem prompt_data_lists (category : string) (diffs : list DiffEntry) :
  prompt_category (_prepare_prompt_data category diffs) = category ∧
  prompt_blogs (_prepare_prompt_data category diffs) =
    (λ d, mkPromptBlog (default (domain (entry_result d)) (entry_blog_name d))
            (default (result_url (entry_result d)) (entry_blog_url d)))
      <$> diffs ∧
  prompt_new_articles (_prepare_prompt_data category diffs) =
    (diffs ≫= λ d,
       (λ a, mkPromptArticle (default "Untitled" (title a)) (default "" (url a))
               (default "" (content a)) (default "" (date a))
               (default (domain (entry_result d)) (entry_blog_name d)))
         <$> new_articles (entry_result d)) ∧
  prompt_changed_articles (_prepare_prompt_data category diffs) =
    (diffs ≫= λ d,
       (λ c, mkPromptChanged (changed_title c) (changed_url c)
               (default (domain (entry_result d)) (entry_blog_name d)))
         <$> changed_articles (entry_result d)) ∧
  length (prompt_blogs (_prepare_prompt_data category diffs)) = length diffs ∧
  length (prompt_new_articles (_prepare_prompt_data category diffs)) =
    sum_list ((λ d, length (new_articles (entry_result d))) <$> diffs).
Proof.
  unfold _prepare_prompt_data. rewrite add_prompt_data_fold. cbn [app].
  cbn [prompt_category prompt_blogs prompt_new_articles prompt_changed_articles].
  split_and!; [done..|by rewrite length_fmap|].
  induction diffs as [|d diffs IH]; [done|].
  rewrite bind_cons, length_app, length_fmap, fmap_cons. cbn [sum_list sum_list_with].
  by rewrite IH.
Qed.

(** ** The run over the blogs *)

Lemma generate_diff_fields lxml netloc fs url current_date_str :
  match (generate_diff lxml netloc fs url current_date_str).1 with
  | Returned (Some r) =>
      result_url r = url ∧ get_domain netloc url = Returned (domain r) ∧
      current_date r = current_date_str
  | _ => True
  end.
Proof.
  unfold generate_diff. destruct (get_domain netloc url) as [|dom]; [done|].
  destruct (read_snapshot _ _ _); [|done].
  destruct (get_previous_content _ _ _) as [|[[pc pd]|]]; cbn [fst]; [done| |done].
  unfold _compare_versions. by destruct (compare_articles _ _) as [[? ?] ?].
Qed.

Lemma only_snapshots_of_write fs domain content date_str :
  only_snapshots_of date_str fs →
  archive (write_snapshot fs domain content date_str) !! domain =
    Some {[date_str +:+ ".html" := content]} ∧
  only_snapshots_of date_str (write_snapshot fs domain content date_str).
Proof.
  intros Honly. unfold write_snapshot.
  unfold only_snapshots_of at 1. cbn [archive].
  assert (<[date_str +:+ ".html" := content]>
            (default ∅ (archive fs !! domain)) =
          ({[date_str +:+ ".html" := content]} : gmap string string)) as ->.
  { apply map_eq. intros file.
    destruct (decide (file = date_str +:+ ".html")) as [->|Hne].
    - by rewrite lookup_insert_eq, lookup_singleton_eq.
    - rewrite lookup_insert_ne, lookup_singleton_ne by done.
      destruct (archive fs !! domain) as [directory|] eqn:Hdir; [|done].
      cbn. destruct (directory !! file) eqn:Hfile; [|done].
      destruct Hne. by apply (Honly _ directory file Hdir). }
  split; [apply lookup_insert_eq|].
  intros dom directory file Hdir Hfile.
  destruct (decide (dom = domain)) as [->|Hne].
  - rewrite lookup_insert_eq in Hdir. injection Hdir as <-.
    destruct Hfile as [c Hc]. by apply lookup_singleton_Some in Hc as [<- _].
  - rewrite lookup_insert_ne in Hdir by done. by apply (Honly dom directory).
Qed.

(** Without a snapshot of another date, a blog adds nothing to [all_diffs]. *)
Lemma process_blog_first_run lxml netloc scrape date_str fs all_diffs blog :
  only_snapshots_of date_str fs →
  ∃ fs', process_blog lxml netloc scrape date_str (fs, all_diffs) blog =
           (fs', all_diffs) ∧
         only_snapshots_of date_str fs'.
Proof.
  intros Honly. unfold process_blog.
  destruct (blog_url blog) as [url|]; [|by exists fs].
  destruct (blog_name blog) as [name|]; [|by exists fs].
  destruct (scrape url) as [html_content|]; [|by exists fs].
  unfold save_content.
  destruct (get_domain netloc url) as [|domain] eqn:Hdomain; [by exists fs|].
  destruct (only_snapshots_of_write fs domain html_content date_str Honly)
    as [Hdir Honly'].
  pose proof (single_snapshot_diff lxml netloc _ url domain date_str
                html_content Hdomain Hdir) as Hdiff.
  pose proof (generate_diff_archive lxml netloc
                (write_snapshot fs domain html_content date_str) url date_str)
    as Harchive.
  destruct (generate_diff _ _ _ _ _) as [result fs2]. cbn [fst snd] in *.
  subst result. cbn [has_changes]. exists fs2. split; [done|].
  unfold only_snapshots_of. by rewrite Harchive.
Qed.

(** X16 ([main] on a first run): when the archive holds no snapshot of an
    earlier date, as on the very first run, the loop over the blogs collects
    no diff, whatever the pages contain, so no newsletter is generated. *)
Theorem first_run_collects_nothing (lxml : string → node)
    (netloc : string → outcome string) (scrape : string → option string)
    (current_date : string) (fs : filesystem) (blogs : list Blog) :
  only_snapshots_of current_date fs →
  (process_blogs lxml netloc scrape current_date fs blogs).2 = [].
Proof.
  unfold process_blogs.
  assert (∀ fs all_diffs, only_snapshots_of current_date fs →
            (fold_left (process_blog lxml netloc scrape current_date) blogs
               (fs, all_diffs)).2 = all_diffs) as Hgen; [|by apply Hgen].
  clear fs. induction blogs as [|blog blogs IH]; intros fs all_diffs Honly; [done|].
  cbn [fold_left].
  destruct (process_blog_first_run lxml netloc scrape current_date fs
              all_diffs blog Honly) as (fs' & -> & Honly').
  by apply IH.
Qed.

Lemma first_run_collects_nothing_witness :
  (process_blogs (λ _, three_posts_page) sample_netloc (λ _, Some "<html>")
     "2024-01-01" (mkFs ∅ ∅)
     [mkBlog (Some "https://www.blog.test/") (Some "Blog") None;
      mkBlog (Some "https://www.blog.test/feed") None (Some "news")]).2 = [].
Proof.
  apply first_run_collects_nothing.
  intros domain directory file Hdir. cbn [archive] in Hdir.
  by rewrite lookup_empty in Hdir.
Defined.



(** X18 ([generate_diff], the metadata of a result): every result that
    [generate_diff] returns repeats the url, the blog's domain and the date
    it was called with, and names a previous date: since the current
    snapshot is in the archive when a result is built, [get_previous_content]
    always finds a file and a result never has [previous_date] unset. *)
Theorem returned_result_metadata (lxml : string → node)
    (netloc : string → outcome string) (fs : filesystem)
    (url current_date_str : string) :
  match (generate_diff lxml netloc fs url current_date_str).1 with
  | Returned (Some r) =>
      result_url r = url ∧ get_domain netloc url = Returned (domain r) ∧
      current_date r = current_date_str ∧ is_Some (previous_date r)
  | _ => True
  end.
Proof.
  pose proof (generate_diff_fields lxml netloc fs url current_date_str) as Hfields.
  unfold generate_diff in *.
  destruct (get_domain netloc url) as [|dom] eqn:Hdomain; [done|].
  destruct (read_snapshot _ _ _) as [content|] eqn:Hread; [|done].
  destruct (current_snapshot_is_found netloc fs url dom current_date_str content
              Hdomain Hread) as [[pc pd] Hprev].
  rewrite Hprev in *. cbn [fst] in *. destruct Hfields as (? & ? & ?).
  split_and!; [done..|].
  unfold _compare_versions. destruct (compare_articles _ _) as [[? ?] ?].
  by eexists.
Qed.
